(** * Retrieval pipeline of aws-rag-triviaqa-demo: chunking, ingest, retrieval,
      prompt assembly, generation dispatch and the Lambda request handler.

    The Python sources are embedded shallowly: pure helpers become functions,
    code that can raise returns [result], code that talks to Bedrock, S3 or
    OpenSearch runs in a small monad that threads a log of transport calls. *)

From Stdlib Require Import ZArith Lia Ascii String List.
From stdpp Require Import base tactics option list strings pretty gmap.

Open Scope string_scope.
Open Scope list_scope.
Open Scope Z_scope.

#[local] Arguments String.append !s1 s2 : simpl nomatch.

(** ** Python values the scripts rely on *)

Module Py.

(** Exceptions the modelled code can raise.  [TransportError] stands for any
    exception thrown by a collaborator (boto3, requests, faiss). *)
Inductive exn : Type :=
  | ValueError (msg : string)
  | IndexError
  | KeyError (key : string)
  | AttributeError (msg : string)
  | TypeError (msg : string)
  | AssertionError
  | Exception (msg : string)
  | TransportError (msg : string).

Inductive result (A : Type) : Type :=
  | Ok (a : A)
  | Raise (e : exn).
Arguments Ok {A} a.
Arguments Raise {A} e.

Definition is_ok {A} (r : result A) : bool :=
  match r with Ok _ => true | Raise _ => false end.

(** [str.isspace] on one character, for the code points below 256:
    TAB..CR, FS..US, SPACE, NEL and NBSP. The same class is what [\s] matches
    in a [re] pattern over [str]. *)
Definition isspace (c : ascii) : bool :=
  let n := N_of_ascii c in
  ((9 <=? n) && (n <=? 13) || (28 <=? n) && (n <=? 32) || (n =? 133) || (n =? 160))%N.

Definition space : ascii := " "%char.

Definition emit (cur : string) : list string :=
  match cur with "" => [] | _ => [cur] end.

(** [s.split()] with no separator: maximal runs of non-whitespace. [cur] is
    the word read so far. *)
Fixpoint split_go (cur : string) (s : string) : list string :=
  match s with
  | "" => emit cur
  | String c s' =>
      if isspace c then emit cur ++ split_go "" s'
      else split_go (cur +:+ String c "") s'
  end.

Definition split (s : string) : list string := split_go "" s.

(** [sep.join(parts)] *)
Fixpoint join (sep : string) (parts : list string) : string :=
  match parts with
  | [] => ""
  | [p] => p
  | p :: rest => p +:+ sep +:+ join sep rest
  end.

Fixpoint lstrip (s : string) : string :=
  match s with
  | "" => ""
  | String c s' => if isspace c then lstrip s' else s
  end.

(** [s.strip()] *)
Definition strip (s : string) : string :=
  String.rev (lstrip (String.rev (lstrip s))).

(** [s.startswith(p)] *)
Definition startswith (s p : string) : bool := String.prefix p s.

(** [s.endswith(p)] *)
Definition endswith (s p : string) : bool :=
  String.prefix (String.rev p) (String.rev s).

(** [str.lower] on one character, for the code points below 256. *)
Definition lower_char (c : ascii) : ascii :=
  let n := N_of_ascii c in
  if ((65 <=? n) && (n <=? 90)
      || (192 <=? n) && (n <=? 222) && negb (n =? 215))%N
  then ascii_of_N (n + 32) else c.

(** [s.lower()] *)
Fixpoint lower (s : string) : string :=
  match s with
  | "" => ""
  | String c s' => String (lower_char c) (lower s')
  end.

(** The line feed, [chr(10)]. *)
Definition LF : string := String (ascii_of_N 10) "".

(** [bool(s)] for a string: non-empty. *)
Definition truthy (s : string) : bool :=
  match s with "" => false | _ => true end.

(** [len(l)] as a Python integer. *)
Definition len {A} (l : list A) : Z := Z.of_nat (length l).

(** Normalisation of one slice bound against a sequence of length [n]:
    negative bounds count from the end, everything is clamped to [0, n]. *)
Definition slice_bound (n i : Z) : Z :=
  if i <? 0 then Z.max (i + n) 0 else Z.min i n.

(** [l[i:j]] *)
Definition slice {A} (l : list A) (i j : Z) : list A :=
  let lo := slice_bound (len l) i in
  let hi := slice_bound (len l) j in
  take (Z.to_nat (hi - lo)) (drop (Z.to_nat lo) l).

(** [l[i]] *)
Definition getitem {A} (l : list A) (i : Z) : result A :=
  let j := if i <? 0 then i + len l else i in
  if j <? 0 then Raise IndexError
  else match l !! Z.to_nat j with
       | Some x => Ok x
       | None => Raise IndexError
       end.

(** [len(range(0, stop, step))] for a positive step: [ceil(stop / step)]. *)
Definition range_len (stop step : Z) : nat :=
  Z.to_nat ((stop + step - 1) / step).

(** [range(0, stop, step)] as a list; a zero step raises [ValueError], a
    negative step from 0 up to a non-negative stop is empty, a positive step
    gives the multiples of [step] below [stop]. *)
Definition range0 (stop step : Z) : result (list Z) :=
  if step =? 0 then Raise (ValueError "range() arg 3 must not be zero")
  else if step <? 0 then Ok []
  else Ok (map (fun j => Z.of_nat j * step) (seq 0 (range_len stop step))).

End Py.
Import Py.

(** ** State and exceptions

    [M S A] is a computation over a state [S] that returns an [A] or raises;
    the state reached when the exception escapes is kept, as it is for the
    Python objects the scripts mutate in place. *)

Definition M (S A : Type) : Type := S → result A * S.

Definition ret {S A} (a : A) : M S A := fun s => (Ok a, s).
Definition raise {S A} (e : exn) : M S A := fun s => (Raise e, s).
Definition lift {S A} (r : result A) : M S A := fun s => (r, s).
Definition bind {S A B} (m : M S A) (k : A → M S B) : M S B :=
  fun s => match m s with
           | (Ok a, s') => k a s'
           | (Raise e, s') => (Raise e, s')
           end.
Definition modify {S} (f : S → S) : M S unit := fun s => (Ok tt, f s).

#[global] Instance M_ret {S} : MRet (M S) := fun A => @ret S A.
#[global] Instance M_bind {S} : MBind (M S) := fun A B k m => @bind S A B m k.

(** [for x in xs: body(x)] *)
Fixpoint for_each {S A} (xs : list A) (body : A → M S unit) : M S unit :=
  match xs with
  | [] => ret tt
  | x :: rest => body x;; for_each rest body
  end.

(** [try: body  except Exception as e: handler(e)] *)
Definition try_except {S A} (body : M S A) (handler : exn → M S A) : M S A :=
  fun s => match body s with
           | (Ok a, s') => (Ok a, s')
           | (Raise e, s') => handler e s'
           end.

(** [list(enumerate(xs))] with Python integers. *)
Definition enumerate {A} (xs : list A) : list (Z * A) :=
  imap (fun i x => (Z.of_nat i, x)) xs.

(** ** local-faiss-demo/build_faiss_index.py *)

Module BuildFaissIndex.

Definition DEFAULT_MAX_WORDS : Z := 200.
Definition DEFAULT_OVERLAP : Z := 50.

(** One turn of the loop of [chunk_text]. *)
Definition chunk_step (words : list string) (max_words : Z)
    (chunks : list string) (i : Z) : list string :=
  let chunk := join " " (slice words i (i + max_words)) in
  if truthy chunk then chunks ++ [chunk] else chunks.

(** [chunk_text(text, max_words, overlap)]: word windows of [max_words]
    words, one every [max_words - overlap] words. *)
Definition chunk_text (text : string) (max_words overlap : Z)
    : result (list string) :=
  let words := split text in
  match range0 (len words) (max_words - overlap) with
  | Raise e => Raise e
  | Ok starts => Ok (fold_left (chunk_step words max_words) starts [])
  end.

Record metadata_record : Type := MkRecord { chunk : string; source : string }.

(** The inner loop of [list_text_files] over the objects of one page; the
    flag says that the function has returned. *)
Fixpoint scan_page (max_files : Z) (keys : list string) (files : list string)
    : list string * bool :=
  match keys with
  | [] => (files, false)
  | key :: rest =>
      if endswith key ".txt" then
        let files' := files ++ [key] in
        if len files' >=? max_files then (files', true)
        else scan_page max_files rest files'
      else scan_page max_files rest files
  end.

Fixpoint scan_pages (max_files : Z) (pages : list (list string))
    (files : list string) : list string :=
  match pages with
  | [] => files
  | page :: rest =>
      let '(files', returned) := scan_page max_files page files in
      if returned then files' else scan_pages max_files rest files'
  end.

(** [list_text_files(bucket, prefix, max_files)] over the keys the paginator
    lists, page by page. *)
Definition list_text_files (pages : list (list string)) (max_files : Z)
    : list string :=
  scan_pages max_files pages [].

Section Ingest.

(** The components of a vector; [faiss] stores them as [float32]. *)
Context {float32 : Type}.

(** [faiss.IndexFlatL2(d)]: the dimension and the stored vectors in
    insertion order. *)
Record IndexFlatL2 : Type := MkIndex { d : nat; xb : list (list float32) }.

Definition ntotal (index : IndexFlatL2) : nat := length (xb index).

(** [index.add(x)] for one row [x]; the wrapper asserts the row width. *)
Definition index_add (index : IndexFlatL2) (x : list float32)
    : result IndexFlatL2 :=
  if Nat.eqb (length x) (d index)
  then Ok {| d := d index; xb := xb index ++ [x] |}
  else Raise AssertionError.

(** The two objects [process_file] mutates. *)
Record store : Type := MkStore {
  index : IndexFlatL2;
  metadata_list : list metadata_record
}.

(** Collaborators: the S3 download and the Titan embedding of a chunk,
    already converted with [np.array(_, dtype='float32')]. *)
Variable get_s3_text : string → string → result string.
Variable get_titan_embedding : string → result (list float32).

Definition add_vector (vector : list float32) : M store unit :=
  fun st => match index_add (index st) vector with
            | Ok index' =>
                (Ok tt, {| index := index'; metadata_list := metadata_list st |})
            | Raise e => (Raise e, st)
            end.

Definition append_metadata (r : metadata_record) : M store unit :=
  modify (fun st => {| index := index st;
                       metadata_list := metadata_list st ++ [r] |}).

(** The body of the loop over the chunks of one file. *)
Definition process_chunk (key : string) (chunk : string) : M store unit :=
  vector ← lift (get_titan_embedding chunk);
  add_vector vector;;
  append_metadata {| chunk := chunk; source := key |}.

Definition process_file (bucket key : string) : M store unit :=
  text ← lift (get_s3_text bucket key);
  chunks ← lift (chunk_text text DEFAULT_MAX_WORDS DEFAULT_OVERLAP);
  for_each chunks (process_chunk key).

(** The loop of the script over the listed files. *)
Definition process_all (bucket : string) (files : list string) : M store unit :=
  for_each files (process_file bucket).

Definition embedding_dim : nat := 1536.

Definition empty_store : store :=
  {| index := {| d := embedding_dim; xb := [] |}; metadata_list := [] |}.

End Ingest.

Arguments IndexFlatL2 : clear implicits.
Arguments store : clear implicits.

End BuildFaissIndex.

(** ** aoss-serverless-demo/ec2-utils/embd_to_aoss.py *)

Module EmbdToAoss.

Definition DEFAULT_MAX_WORDS : Z := 200.

Definition is_terminator (c : ascii) : bool :=
  (Ascii.eqb c "." || Ascii.eqb c "!" || Ascii.eqb c "?")%char.

(** [re.split(r'(?<=[.!?])\s+', text)]: the text is cut at every run of
    whitespace that directly follows one of [.!?]. [cur] is the piece read
    so far, [after_punct] says its last character is a terminator and
    [skipping] that a separator is being consumed. *)
Fixpoint re_split_go (cur : string) (after_punct skipping : bool) (s : string)
    : list string :=
  match s with
  | "" => [cur]
  | String c s' =>
      if isspace c then
        if skipping then re_split_go "" false true s'
        else if after_punct then cur :: re_split_go "" false true s'
        else re_split_go (cur +:+ String c "") false false s'
      else re_split_go (cur +:+ String c "") (is_terminator c) false s'
  end.

Definition re_split (text : string) : list string :=
  re_split_go "" false false text.

(** The three variables of the loop of [chunk_text]. *)
Record acc : Type := MkAcc {
  chunks : list string;
  current : list string;
  count : Z
}.

Definition chunk_step (max_words : Z) (a : acc) (s : string) : acc :=
  let w := len (split s) in
  if count a + w >? max_words
  then {| chunks := chunks a ++ [join " " (current a)];
          current := [s]; count := w |}
  else {| chunks := chunks a; current := current a ++ [s];
          count := count a + w |}.

Definition chunk_finish (a : acc) : list string :=
  match current a with
  | [] => chunks a
  | _ => chunks a ++ [join " " (current a)]
  end.

(** [chunk_text(text, max_words)]: whole sentences are gathered until the
    next one would pass [max_words] words. *)
Definition chunk_text (text : string) (max_words : Z) : list string :=
  let sentences := re_split text in
  chunk_finish
    (fold_left (chunk_step max_words) sentences
               {| chunks := []; current := []; count := 0 |}).

Section Ingest.

Context {vector : Type}.

(** What the script sends out and prints. *)
Inductive event : Type :=
  | Embedded (chunk : string)
  | Posted (chunk : string) (embedding : vector) (source : string)
  | PrintSkipShort (i : Z)
  | PrintIndexFailed (status : Z)
  | PrintChunkIndexed
  | PrintException (i : Z) (e : exn)
  | Sleep.

(** Collaborators: the Bedrock embedding call and [requests.post] to the
    [_doc] endpoint, which answers with a status code or raises. *)
Variable invoke_embedding : string → result vector.
Variable requests_post : string → vector → string → result Z.

Definition log (e : event) : M (list event) unit :=
  modify (fun t => t ++ [e]).

Definition embed_text (text : string) : M (list event) vector :=
  log (Embedded text);;
  lift (invoke_embedding text).

Definition index_chunk (chunk : string) (v : vector) (source : string)
    : M (list event) unit :=
  log (Posted chunk v source);;
  status ← lift (requests_post chunk v source);
  if (status =? 200) || (status =? 201)
  then log PrintChunkIndexed
  else log (PrintIndexFailed status).

(** The body of the loop over [enumerate(chunks)]. *)
Definition process_chunk (key : string) (ic : Z * string) : M (list event) unit :=
  let (i, chunk) := ic in
  if len (list_ascii_of_string (strip chunk)) <? 20
  then log (PrintSkipShort i)
  else try_except
         (embedding ← embed_text chunk;
          index_chunk chunk embedding key;;
          log Sleep)
         (fun e => log (PrintException i e)).

(** The part of [process_files] that handles the text of one object. *)
Definition process_text (key text : string) : M (list event) unit :=
  for_each (enumerate (chunk_text text DEFAULT_MAX_WORDS)) (process_chunk key).

(** [s3.get_object(...)["Body"].read().decode("utf-8")] *)
Variable get_object_text : string → result string.

Definition process_key (key : string) : M (list event) unit :=
  if negb (endswith key ".txt") then mret tt
  else
    text ← lift (get_object_text key);
    process_text key text.

(** [process_files()] over the keys of the listed pages. *)
Definition process_files (pages : list (list string)) : M (list event) unit :=
  for_each pages (fun page => for_each page process_key).

End Ingest.

Arguments event : clear implicits.

End EmbdToAoss.

(** ** JSON values as [json.loads] builds them *)

Module Json.

#[local] Unset Elimination Schemes.

Inductive json : Type :=
  | JNull
  | JBool (b : bool)
  | JInt (n : Z)
  | JFloat (mantissa exponent : Z)   (* mantissa * 10 ^ exponent *)
  | JStr (s : string)
  | JList (items : list json)
  | JDict (fields : list (string * json)).

#[local] Set Elimination Schemes.

Fixpoint assoc (fields : list (string * json)) (key : string) : option json :=
  match fields with
  | [] => None
  | (k, v) :: rest => if String.eqb k key then Some v else assoc rest key
  end.

(** [j[key]] *)
Definition item (j : json) (key : string) : result json :=
  match j with
  | JDict fields =>
      match assoc fields key with
      | Some v => Ok v
      | None => Raise (KeyError key)
      end
  | _ => Raise (TypeError "subscript")
  end.

(** [j[0]] *)
Definition first (j : json) : result json :=
  match j with
  | JList (x :: _) => Ok x
  | JList [] => Raise IndexError
  | JDict _ => Raise (KeyError "0")
  | JStr (String c _) => Ok (JStr (String c ""))
  | JStr "" => Raise IndexError
  | _ => Raise (TypeError "subscript")
  end.

(** [j.get(key, default)] *)
Definition get (j : json) (key : string) (default : json) : result json :=
  match j with
  | JDict fields => Ok (from_option id default (assoc fields key))
  | _ => Raise (AttributeError "get")
  end.

End Json.
Import Json.

(** A call that leaves the process: [bedrock.invoke_model] or
    [requests.post]. *)
Inductive call : Type :=
  | InvokeModel (modelId : string) (body : json)
  | HttpPost (url : string) (payload : json).

Section Transport.

Variable bedrock_invoke_model : string → json → result json.
Variable requests_post : string → json → result (Z * json).

(** [json.loads(bedrock.invoke_model(modelId=..., body=...)['body'].read())] *)
Definition invoke_model (modelId : string) (body : json) : M (list call) json :=
  modify (fun t => t ++ [InvokeModel modelId body]);;
  lift (bedrock_invoke_model modelId body).

(** [requests.post(url, json=payload)]: status code and decoded body. *)
Definition http_post (url : string) (payload : json) : M (list call) (Z * json) :=
  modify (fun t => t ++ [HttpPost url payload]);;
  lift (requests_post url payload).

End Transport.

(** [[f(x) for x in xs]] where [f] can raise. *)
Fixpoint traverse {A B} (f : A → result B) (xs : list A) : result (list B) :=
  match xs with
  | [] => Ok []
  | x :: rest =>
      match f x with
      | Raise e => Raise e
      | Ok y => match traverse f rest with
                | Raise e => Raise e
                | Ok ys => Ok (y :: ys)
                end
      end
  end.

(** [sep.join(parts)] on decoded JSON values: every part has to be a
    string. *)
Definition as_str (j : json) : result string :=
  match j with
  | JStr s => Ok s
  | _ => Raise (TypeError "sequence item: expected str instance")
  end.

Definition join_json (sep : string) (parts : list json) : result string :=
  match traverse as_str parts with
  | Raise e => Raise e
  | Ok ss => Ok (join sep ss)
  end.

(** ** local-faiss-demo/query_rag.py *)

Module FaissQuery.

Import BuildFaissIndex.

Definition TOP_K : nat := 5.

Section Search.

Context {float32 dist : Type}.

(** The metric of the index and the order on its values. *)
Variable fvec_L2sqr : list float32 → list float32 → dist.
Variable dist_leb : dist → dist → bool.

Fixpoint insert_hit (h : dist * nat) (hits : list (dist * nat))
    : list (dist * nat) :=
  match hits with
  | [] => [h]
  | h' :: rest =>
      if dist_leb h.1 h'.1 then h :: hits else h' :: insert_hit h rest
  end.

(** All stored vectors by ascending distance to [q], earlier slots first
    among equals. *)
Definition ranked (index : IndexFlatL2 float32) (q : list float32)
    : list (dist * nat) :=
  fold_right insert_hit []
    (imap (fun slot x => (fvec_L2sqr q x, slot)) (xb index)).

(** [index.search(q, k)] for one query row. FAISS always fills [k] result
    slots: those beyond the stored vectors carry the label -1 and no
    distance. *)
Definition search (index : IndexFlatL2 float32) (q : list float32) (k : nat)
    : list (option dist) * list Z :=
  let hits := take k (ranked index q) in
  let missing := (k - length hits)%nat in
  (map (fun h => Some h.1) hits ++ replicate missing None,
   map (fun h => Z.of_nat h.2) hits ++ replicate missing (-1)).

(** [retrieve_top_k(index, embedding, metadata, k)] *)
Definition retrieve_top_k (index : IndexFlatL2 float32) (embedding : list float32)
    (metadata : list metadata_record) (k : nat) : result (list metadata_record) :=
  let '(distances, labels) := search index embedding k in
  traverse (getitem metadata) labels.

End Search.

(** [build_prompt(chunks, question)] *)
Definition build_prompt (chunks : list metadata_record) (question : string)
    : string :=
  let context :=
    join (LF +:+ LF)
         (map (fun ic => "[" +:+ pretty (ic.1 + 1) +:+ "] " +:+ chunk ic.2)
              (enumerate chunks)) in
  "You are a helpful assistant. Use the following context to answer the question."
    +:+ LF +:+ LF
    +:+ "Context:" +:+ LF +:+ context +:+ LF +:+ LF
    +:+ "Question: " +:+ question +:+ LF +:+ LF +:+ "Answer:".

(** The prompt of the loop when [--disable-rag] is given. *)
Definition raw_prompt (question : string) : string :=
  "Answer the following question:" +:+ LF +:+ LF
    +:+ "Question: " +:+ question +:+ LF +:+ LF +:+ "Answer:".

(** The request body [call_bedrock_model] builds, by model family. *)
Definition request_body (prompt model_id : string) : result json :=
  if startswith model_id "anthropic.claude" then
    Ok (JDict [("prompt", JStr prompt);
               ("max_tokens_to_sample", JInt 300);
               ("temperature", JFloat 7 (-1));
               ("stop_sequences", JList [JStr (LF +:+ LF)])])
  else if startswith model_id "amazon.titan-text" then
    Ok (JDict [("inputText", JStr prompt)])
  else if startswith model_id "mistral." then
    Ok (JDict [("prompt", JStr prompt);
               ("max_tokens", JInt 300);
               ("temperature", JFloat 7 (-1))])
  else Raise (ValueError ("Unsupported model: " +:+ model_id)).

Definition NO_OUTPUT : json := JStr "[No output]".

(** The answer [call_bedrock_model] reads from the response, by family. *)
Definition response_text (response_body : json) (model_id : string)
    : result json :=
  if startswith model_id "anthropic.claude" then
    Json.get response_body "completion" NO_OUTPUT
  else if startswith model_id "amazon.titan-text" then
    match Json.get response_body "results" (JList [JDict []]) with
    | Raise e => Raise e
    | Ok rs => match Json.first rs with
               | Raise e => Raise e
               | Ok r => Json.get r "outputText" NO_OUTPUT
               end
    end
  else if startswith model_id "mistral." then
    match Json.get response_body "outputs" (JList [JDict []]) with
    | Raise e => Raise e
    | Ok rs => match Json.first rs with
               | Raise e => Raise e
               | Ok r => Json.get r "text" NO_OUTPUT
               end
    end
  else Ok (JStr "[Unknown model output format]").

Section Loop.

Context {float32 dist : Type}.
Variable fvec_L2sqr : list float32 → list float32 → dist.
Variable dist_leb : dist → dist → bool.
Variable bedrock_invoke_model : string → json → result json.
(** [np.array(_, dtype='float32')] of the decoded embedding. *)
Variable np_array : json → result (list float32).

(** [call_bedrock_model(prompt, bedrock, model_id)] *)
Definition call_bedrock_model (prompt model_id : string) : M (list call) json :=
  body ← lift (request_body prompt model_id);
  response_body ← invoke_model bedrock_invoke_model model_id body;
  lift (response_text response_body model_id).

(** [get_embedding(text, bedrock)] *)
Definition get_embedding (text : string) : M (list call) (list float32) :=
  result ← invoke_model bedrock_invoke_model "amazon.titan-embed-text-v1"
             (JDict [("inputText", JStr text)]);
  embedding ← lift (Json.item result "embedding");
  lift (np_array embedding).

(** One turn of the loop of [main] on the line [line] read from the
    console; [None] stands for [continue] on a blank question. *)
Definition ask (index : IndexFlatL2 float32) (metadata : list metadata_record)
    (disable_rag : bool) (model_id : string) (line : string)
    : M (list call) (option json) :=
  let question := strip line in
  if negb (truthy question) then mret None
  else
    prompt ← (if disable_rag then mret (raw_prompt question)
              else
                embedding ← get_embedding question;
                top_chunks ← lift (retrieve_top_k fvec_L2sqr dist_leb
                                     index embedding metadata TOP_K);
                mret (build_prompt top_chunks question));
    answer ← call_bedrock_model prompt model_id;
    mret (Some answer).

End Loop.

End FaissQuery.

(** ** aoss-serverless-demo/ec2-utils/query_rag.py *)

Module AossQuery.

(** [build_prompt(user_question, context_chunks)] *)
Definition build_prompt (user_question : string) (context_chunks : list json)
    : result string :=
  match join_json (LF +:+ LF) context_chunks with
  | Raise e => Raise e
  | Ok context_block =>
      Ok ("Use the context below to answer the question." +:+ LF +:+ LF
            +:+ "Context:" +:+ LF +:+ context_block +:+ LF +:+ LF
            +:+ "Question: " +:+ user_question +:+ LF +:+ "Answer:")
  end.

(** [hit["_source"]["chunk"]] *)
Definition hit_chunk (hit : json) : result json :=
  match Json.item hit "_source" with
  | Raise e => Raise e
  | Ok src => Json.item src "chunk"
  end.

Section Loop.

Variable bedrock_invoke_model : string → json → result json.
Variable requests_post : string → json → result (Z * json).
(** Command-line arguments. *)
Variables (aoss_endpoint index embed_model_id gen_model_id : string).
Variable top_k : Z.

Definition embed_query (text : string) : M (list call) json :=
  result ← invoke_model bedrock_invoke_model embed_model_id
             (JDict [("inputText", JStr text)]);
  lift (Json.item result "embedding").

Definition knn_query (vector : json) (k : Z) : json :=
  JDict [("size", JInt k);
         ("query", JDict [("knn", JDict [("embedding",
            JDict [("vector", vector); ("k", JInt k)])])])].

Definition knn_search (vector : json) : M (list call) (list json) :=
  response ← http_post requests_post
               (aoss_endpoint +:+ "/" +:+ index +:+ "/_search")
               (knn_query vector top_k);
  if negb (response.1 =? 200)
  then raise (Exception "AOSS search failed")
  else
    outer ← lift (Json.get response.2 "hits" (JDict []));
    hits ← lift (Json.get outer "hits" (JList []));
    match hits with
    | JList hs => lift (traverse hit_chunk hs)
    | _ => raise (TypeError "not iterable")
    end.

(** [call_bedrock_generator(prompt)]: always the Titan Text shape. *)
Definition call_bedrock_generator (prompt : string) : M (list call) json :=
  result ← invoke_model bedrock_invoke_model gen_model_id
             (JDict [("inputText", JStr prompt);
                     ("textGenerationConfig",
                      JDict [("maxTokenCount", JInt 512);
                             ("temperature", JFloat 5 (-1));
                             ("topP", JFloat 9 (-1))])]);
  results ← lift (Json.item result "results");
  r ← lift (Json.first results);
  lift (Json.item r "outputText").

(** The prompt of one turn of the loop. *)
Definition prompt_for (enable_rag : bool) (question : string)
    : M (list call) string :=
  if enable_rag then
    embedding ← embed_query question;
    context ← knn_search embedding;
    lift (build_prompt question context)
  else mret question.

(** One turn of the loop on the line read from the console; [None] stands
    for [continue] on a blank question and for a printed error. *)
Definition ask (enable_rag : bool) (line : string) : M (list call) (option json) :=
  let question := strip line in
  if negb (truthy question) then mret None
  else try_except
         (prompt ← prompt_for enable_rag question;
          answer ← call_bedrock_generator prompt;
          mret (Some answer))
         (fun e => mret None).

End Loop.

End AossQuery.

(** ** aoss-serverless-demo/lambda/lambda_function.py *)

Module LambdaFunction.

Definition EMBED_MODEL_ID : string := "amazon.titan-embed-text-v1".
Definition DEFAULT_MODEL_ID : string := "amazon.titan-text-lite-v1".

(** The value under ["queryStringParameters"] in the API Gateway event:
    the key can be absent, hold [null], or hold a map of strings. *)
Inductive query_string_parameters : Type :=
  | Absent
  | Null
  | Params (params : gmap string string).

Record event : Type := MkEvent {
  queryStringParameters : query_string_parameters
}.

Inductive body_value : Type :=
  | Text (s : string)
  | JsonDumps (j : json).   (* the string [json.dumps(j)] *)

(** The dictionary the handler returns; [headers] is empty when the
    dictionary has no such key. *)
Record response : Type := MkResponse {
  statusCode : Z;
  headers : list (string * string);
  body : body_value
}.

(** The request body [generate_answer] builds, by model family. *)
Definition request_body (prompt model_id : string) : result json :=
  if startswith model_id "anthropic.claude" then
    Ok (JDict [("prompt", JStr (LF +:+ LF +:+ "Human: " +:+ prompt
                                 +:+ LF +:+ LF +:+ "Assistant:"));
               ("max_tokens_to_sample", JInt 512);
               ("temperature", JFloat 5 (-1));
               ("top_k", JInt 250);
               ("top_p", JFloat 9 (-1));
               ("stop_sequences", JList [JStr (LF +:+ LF +:+ "Human:")])])
  else if startswith model_id "amazon.titan-text" then
    Ok (JDict [("inputText", JStr prompt);
               ("textGenerationConfig",
                JDict [("maxTokenCount", JInt 512);
                       ("temperature", JFloat 5 (-1));
                       ("topP", JFloat 9 (-1))])])
  else if startswith model_id "mistral.mistral-7b" then
    Ok (JDict [("prompt", JStr prompt);
               ("max_tokens", JInt 512);
               ("temperature", JFloat 7 (-1));
               ("top_p", JFloat 9 (-1));
               ("stop", JList [])])
  else if startswith model_id "cohere.command-r" then
    Ok (JDict [("prompt", JStr prompt);
               ("max_tokens", JInt 512);
               ("temperature", JFloat 7 (-1));
               ("p", JFloat 9 (-1));
               ("stop_sequences", JList []);
               ("return_likelihoods", JStr "NONE")])
  else Raise (ValueError ("Unsupported model_id: " +:+ model_id)).

Definition first_field (res : json) (outer inner : string) : result json :=
  match Json.item res outer with
  | Raise e => Raise e
  | Ok rs => match Json.first rs with
             | Raise e => Raise e
             | Ok r => Json.item r inner
             end
  end.

(** The answer [generate_answer] reads from the response, by family; the
    function falls off its end ([None]) when no family matches. *)
Definition response_text (res : json) (model_id : string) : result json :=
  if startswith model_id "anthropic.claude" then Json.item res "completion"
  else if startswith model_id "amazon.titan-text" then
    first_field res "results" "outputText"
  else if startswith model_id "mistral.mistral-7b" then
    first_field res "outputs" "text"
  else if startswith model_id "cohere.command-r" then
    first_field res "generations" "text"
  else Ok JNull.

Section Handler.

Variable bedrock_invoke_model : string → json → result json.
Variable requests_post : string → json → result (Z * json).
(** Environment of the function. *)
Variables (AOSS_ENDPOINT INDEX_NAME : string).

Definition embed_text (text : string) : M (list call) json :=
  res ← invoke_model bedrock_invoke_model EMBED_MODEL_ID
          (JDict [("inputText", JStr text)]);
  lift (Json.item res "embedding").

Definition knn_search (vector : json) (k : Z) : M (list call) (list json) :=
  response ← http_post requests_post
               (AOSS_ENDPOINT +:+ "/" +:+ INDEX_NAME +:+ "/_search")
               (AossQuery.knn_query vector k);
  if negb (response.1 =? 200)
  then raise (Exception "AOSS search failed")
  else
    outer ← lift (Json.get response.2 "hits" (JDict []));
    hits ← lift (Json.get outer "hits" (JList []));
    match hits with
    | JList hs => lift (traverse AossQuery.hit_chunk hs)
    | _ => raise (TypeError "not iterable")
    end.

(** [generate_answer(prompt, model_id)] *)
Definition generate_answer (prompt model_id : string) : M (list call) json :=
  body ← lift (request_body prompt model_id);
  res ← invoke_model bedrock_invoke_model model_id body;
  lift (response_text res model_id).

(** The prompt [lambda_handler] hands to [generate_answer]. *)
Definition full_prompt (use_rag : bool) (question : string)
    : M (list call) string :=
  if use_rag then
    vector ← embed_text question;
    context_chunks ← knn_search vector 5;
    context ← lift (join_json LF context_chunks);
    mret ("Use the context below to answer the question." +:+ LF
            +:+ "Context:" +:+ LF +:+ context +:+ LF +:+ LF
            +:+ "Question: " +:+ question +:+ LF +:+ "Answer:")
  else mret question.

(** [answer.strip()] *)
Definition strip_answer (answer : json) : result string :=
  match answer with
  | JStr s => Ok (strip s)
  | _ => Raise (AttributeError "strip")
  end.

(** [lambda_handler(event, context)] *)
Definition lambda_handler (ev : event) : M (list call) response :=
  match queryStringParameters ev with
  | Null => raise (AttributeError "'NoneType' object has no attribute 'get'")
  | Absent | Params _ =>
      let params : gmap string string :=
        match queryStringParameters ev with Params m => m | _ => ∅ end in
      let question := default "" (params !! "prompt") in
      let model_id := default DEFAULT_MODEL_ID (params !! "model_id") in
      let use_rag :=
        String.eqb (lower (default "false" (params !! "enable_rag"))) "true" in
      if negb (truthy question)
      then mret {| statusCode := 400; headers := [];
                   body := Text "Missing 'prompt' query parameter" |}
      else
        prompt ← full_prompt use_rag question;
        answer ← generate_answer prompt model_id;
        stripped ← lift (strip_answer answer);
        mret {| statusCode := 200;
                headers := [("Content-Type", "application/json")];
                body := JsonDumps (JDict [("answer", JStr stripped)]) |}
  end.

End Handler.

End LambdaFunction.

(** ** aoss-serverless-demo/ec2-utils/create_aoss_index.py *)

Module CreateAossIndex.

Fixpoint lstrip_char (c : ascii) (s : string) : string :=
  match s with
  | "" => ""
  | String x s' => if Ascii.eqb x c then lstrip_char c s' else s
  end.

(** [s.rstrip(c)] for a single character [c]. *)
Definition rstrip_char (c : ascii) (s : string) : string :=
  String.rev (lstrip_char c (String.rev s)).

Definition index_url (endpoint index_name : string) : string :=
  rstrip_char "/" endpoint +:+ "/" +:+ index_name.

(** The index definition sent with the request. *)
Definition payload : json :=
  JDict [("settings", JDict [("index", JDict [("knn", JBool true)])]);
         ("mappings", JDict [("properties", JDict [
            ("chunk", JDict [("type", JStr "text")]);
            ("embedding", JDict [
               ("type", JStr "knn_vector");
               ("dimension", JInt 1536);
               ("method", JDict [("name", JStr "hnsw");
                                 ("space_type", JStr "l2");
                                 ("engine", JStr "faiss")])]);
            ("source", JDict [("type", JStr "keyword")])])])].

(** What the script sends out and prints. *)
Inductive event : Type :=
  | Put (url : string) (body : json)
  | PrintCreating (index_name url : string)
  | PrintCreated
  | PrintFailed (status : Z).

Section CreateIndex.

(** [requests.put(url, ...)]: the status code, or an exception. *)
Variable requests_put : string → json → result Z.

(** [create_index(endpoint, index_name, region)] *)
Definition create_index (endpoint index_name : string) : M (list event) unit :=
  let url := index_url endpoint index_name in
  modify (fun t => t ++ [PrintCreating index_name url]);;
  modify (fun t => t ++ [Put url payload]);;
  status ← lift (requests_put url payload);
  if status =? 200
  then modify (fun t => t ++ [PrintCreated])
  else modify (fun t => t ++ [PrintFailed status]).

End CreateIndex.

End CreateAossIndex.

(** ** common-utils/extract_to_s3.py *)

Module ExtractToS3.

(** One entry of a record's ["EntityPages"]; [doc["Filename"]] raises
    [KeyError] when the key is absent. *)
Record page : Type := MkPage { Filename : option string }.

(** One record of ["Data"]; [record.get("EntityPages", [])] reads as the
    empty list when the key is absent. *)
Record record : Type := MkRecord { EntityPages : option (list page) }.

(** What the script runs and prints for a member of the archive. *)
Inductive event : Type :=
  | RunTar (archive_member : string)
  | PrintExtracted (archive_member : string)
  | PrintExtractFailed (archive_member : string)
  | PrintSkipExtract (archive_member : string)
  | UploadFile (s3_key : string)
  | PrintUploaded (s3_key : string)
  | PrintUploadFailed (s3_key : string) (e : exn).

(** The two sets of the function, the members present under the output
    directory, and what has been run and printed. *)
Record state : Type := MkState {
  extracted_files : gset string;
  uploaded_files : gset string;
  local_files : gset string;
  trace : list event
}.

Definition log (e : event) : M state unit :=
  modify (fun st => {| extracted_files := extracted_files st;
                       uploaded_files := uploaded_files st;
                       local_files := local_files st;
                       trace := trace st ++ [e] |}).

Definition add_extracted (m : string) : M state unit :=
  modify (fun st => {| extracted_files := {[ m ]} ∪ extracted_files st;
                       uploaded_files := uploaded_files st;
                       local_files := local_files st;
                       trace := trace st |}).

Definition add_uploaded (k : string) : M state unit :=
  modify (fun st => {| extracted_files := extracted_files st;
                       uploaded_files := {[ k ]} ∪ uploaded_files st;
                       local_files := local_files st;
                       trace := trace st |}).

Definition add_local (m : string) : M state unit :=
  modify (fun st => {| extracted_files := extracted_files st;
                       uploaded_files := uploaded_files st;
                       local_files := {[ m ]} ∪ local_files st;
                       trace := trace st |}).

Definition get_state : M state state := fun st => (Ok st, st).

Section ExtractAndUpload.

(** Collaborators: [tar -xf archive -C output_dir member] ends with status
    zero or not, and [s3.upload_file] returns or raises. *)
Variable tar_extract : string → bool.
Variable s3_upload_file : string → result unit.

(** The upload at the end of the loop body. *)
Definition upload (s3_key : string) : M state unit :=
  st ← get_state;
  if bool_decide (s3_key ∈ uploaded_files st) then mret tt
  else
    log (UploadFile s3_key);;
    match s3_upload_file s3_key with
    | Ok _ => log (PrintUploaded s3_key);; add_uploaded s3_key
    | Raise e => log (PrintUploadFailed s3_key e)
    end.

(** The body of the loop over the entity pages of a record. *)
Definition process_doc (doc : page) : M state unit :=
  match Filename doc with
  | None => raise (KeyError "Filename")
  | Some filename =>
      let archive_member := "evidence/wikipedia/" +:+ filename in
      let s3_key := "evidence/wikipedia/" +:+ filename in
      st ← get_state;
      if bool_decide (archive_member ∈ extracted_files st) then mret tt
      else if negb (bool_decide (archive_member ∈ local_files st)) then
        log (RunTar archive_member);;
        if tar_extract archive_member then
          add_local archive_member;;
          log (PrintExtracted archive_member);;
          add_extracted archive_member;;
          upload s3_key
        else log (PrintExtractFailed archive_member)
      else
        log (PrintSkipExtract archive_member);;
        add_extracted archive_member;;
        upload s3_key
  end.

Definition process_record (r : record) : M state unit :=
  for_each (default [] (EntityPages r)) process_doc.

(** [extract_and_upload(json_path, archive_path, output_dir, bucket, count)]
    on the decoded ["Data"] list. *)
Definition extract_and_upload (data : list record) (count : Z) : M state unit :=
  for_each (slice data 0 count) process_record.

End ExtractAndUpload.

(** The state at the start of the function, with the members already under
    the output directory. *)
Definition initial_state (present : gset string) : state :=
  {| extracted_files := ∅; uploaded_files := ∅;
     local_files := present; trace := [] |}.

End ExtractToS3.

(** A word is a non-empty string without whitespace. *)
Fixpoint nospace (s : string) : bool :=
  match s with
  | "" => true
  | String c s' => negb (isspace c) && nospace s'
  end.

Definition is_word (s : string) : bool := truthy s && nospace s.

(** The words of each chunk. *)
Definition chunk_words (chunks : list string) : list (list string) :=
  map split chunks.

(** The word sequence the chunks stand for once the [overlap] words that
    every chunk but the first repeats from its predecessor are removed. *)
Definition strip_overlap {A} (overlap : nat) (chunks : list (list A))
    : list A :=
  match chunks with
  | [] => []
  | c :: rest => c ++ concat (map (drop overlap) rest)
  end.

(** A text of [n] words without any sentence terminator. *)
Definition plain_text (n : nat) : string := join " " (replicate n "word").

(** The pairing of the two stores: the record at each slot describes the
    chunk whose embedding is the vector at that slot. *)
Definition paired {float32} (embed : string → result (list float32))
    (st : BuildFaissIndex.store float32) : Prop :=
  Forall2 (fun r v => embed (BuildFaissIndex.chunk r) = Ok v)
          (BuildFaissIndex.metadata_list st)
          (BuildFaissIndex.xb (BuildFaissIndex.index st)).

(** A document of two windows, and collaborators of which the embedding
    call fails on the first window only. *)
Definition two_chunk_text : string := plain_text 151.

Definition s3_two_chunks (bucket key : string) : result string :=
  Ok two_chunk_text.

Definition embedding_fails_once (chunk : string) : result (list Z) :=
  if String.eqb chunk two_chunk_text
  then Raise (TransportError "ThrottlingException")
  else Ok (replicate BuildFaissIndex.embedding_dim 0).

(** Collaborators that always answer: a short document under every key and
    the zero vector for every chunk. *)
Definition s3_small (bucket key : string) : result string :=
  Ok "alpha beta gamma".

Definition embed_zero (chunk : string) : result (list Z) :=
  Ok (replicate BuildFaissIndex.embedding_dim 0).

(** The chunks embd_to_aoss.py does not skip as too short. *)
Definition long_enough (chunk : string) : bool :=
  negb (len (list_ascii_of_string (strip chunk)) <? 20).

(** The model families of the generation adapter, by the prefix of the model
    identifier: Claude, Titan Text, Mistral and Cohere Command. *)
Definition known_family (model_id : string) : bool :=
  startswith model_id "anthropic.claude"
  || startswith model_id "amazon.titan-text"
  || startswith model_id "mistral."
  || startswith model_id "cohere.command".

(** A Bedrock endpoint that answers every call in the Titan Text shape, and
    a search endpoint that finds nothing. *)
Definition bedrock_titan (modelId : string) (body : json) : result json :=
  Ok (JDict [("results", JList [JDict [("outputText", JStr " Paris ")]])]).

Definition search_nothing (url : string) (payload : json) : result (Z * json) :=
  Ok (200, JDict []).

Definition sum_sq (a b : list Z) : Z :=
  fold_right Z.add 0 (zip_with (fun x y => (x - y) * (x - y)) a b).

Definition no_vector (embedding : json) : result (list Z) := Ok [].

(** The 400 and 200 responses of the Lambda handler. *)
Definition missing_prompt_response : LambdaFunction.response :=
  {| LambdaFunction.statusCode := 400;
     LambdaFunction.headers := [];
     LambdaFunction.body := LambdaFunction.Text "Missing 'prompt' query parameter" |}.

Definition answer_response (answer : string) : LambdaFunction.response :=
  {| LambdaFunction.statusCode := 200;
     LambdaFunction.headers := [("Content-Type", "application/json")];
     LambdaFunction.body :=
       LambdaFunction.JsonDumps (JDict [("answer", JStr answer)]) |}.

(** What the handler reads from the query parameters. *)
Definition param_model_id (params : gmap string string) : string :=
  default LambdaFunction.DEFAULT_MODEL_ID (params !! "model_id").

Definition param_use_rag (params : gmap string string) : bool :=
  String.eqb (lower (default "false" (params !! "enable_rag"))) "true".


Definition event_question : LambdaFunction.event :=
  LambdaFunction.MkEvent
    (LambdaFunction.Params {[ "prompt" := "Capital of France?" ]}).


(** The last character of a piece is one of [.!?]. *)
Definition ends_with_terminator (s : string) : bool :=
  match String.rev s with
  | String c _ => EmbdToAoss.is_terminator c
  | "" => false
  end.

(** What the loop of the sentence chunker keeps when no sentence is longer
    than [max_words]: [count] is the number of words gathered in [current],
    it is within the bound, and so is every chunk closed so far. *)
Definition sentence_inv (max_words : Z) (a : EmbdToAoss.acc) : Prop :=
  EmbdToAoss.count a = len (concat (map split (EmbdToAoss.current a))) ∧
  EmbdToAoss.count a ≤ max_words ∧
  Forall (fun c => len (split c) ≤ max_words) (EmbdToAoss.chunks a).

(** Collaborators of the AOSS ingest that always answer, and one embedding
    call that fails on every chunk that mentions ["second"]. *)
Definition aoss_embed_ok (chunk : string) : result (list Z) := Ok [1].

Definition aoss_post_created (chunk : string) (v : list Z) (source : string)
    : result Z := Ok 201.

Definition aoss_get_text (key : string) : result string :=
  Ok "This is the first sentence of the text. Here comes the second one.".

(** The state [process_file] reaches from [st] when the chunks [cs] of the
    object [key] are embedded as [vec] says. *)
Definition ingested {float32} (vec : string → list float32) (key : string)
    (cs : list string) (st : BuildFaissIndex.store float32)
    : BuildFaissIndex.store float32 :=
  {| BuildFaissIndex.index :=
       {| BuildFaissIndex.d := BuildFaissIndex.d (BuildFaissIndex.index st);
          BuildFaissIndex.xb :=
            BuildFaissIndex.xb (BuildFaissIndex.index st) ++ map vec cs |};
     BuildFaissIndex.metadata_list :=
       BuildFaissIndex.metadata_list st
         ++ map (fun c => BuildFaissIndex.MkRecord c key) cs |}.

(** One store extends another: same dimension, and the vectors and records
    of the first are the leading ones of the second, slot by slot. *)
Definition extends {float32} (st st' : BuildFaissIndex.store float32) : Prop :=
  BuildFaissIndex.d (BuildFaissIndex.index st')
    = BuildFaissIndex.d (BuildFaissIndex.index st) ∧
  BuildFaissIndex.xb (BuildFaissIndex.index st)
    `prefix_of` BuildFaissIndex.xb (BuildFaissIndex.index st') ∧
  BuildFaissIndex.metadata_list st `prefix_of` BuildFaissIndex.metadata_list st'.

Definition is_txt (key : string) : bool := endswith key ".txt".

(** A small index with its metadata, and a response object without any of
    the fields an answer is read from. *)
Definition three_vectors : BuildFaissIndex.IndexFlatL2 Z :=
  {| BuildFaissIndex.d := 1; BuildFaissIndex.xb := [[10]; [1]; [5]] |}.

Definition three_records : list BuildFaissIndex.metadata_record :=
  [BuildFaissIndex.MkRecord "far" "a.txt";
   BuildFaissIndex.MkRecord "near" "a.txt";
   BuildFaissIndex.MkRecord "middle" "b.txt"].

(** A Bedrock endpoint that returns an embedding for the embedding model
    and a search endpoint that is not available. *)
Definition bedrock_embedding (modelId : string) (body : json) : result json :=
  Ok (JDict [("embedding", JList [JFloat 1 (-1); JFloat 2 (-1)])]).

Definition search_unavailable (url : string) (payload : json)
    : result (Z * json) :=
  Ok (503, JDict [("message", JStr "Service Unavailable")]).

(** A Bedrock endpoint that is throttled. *)
Definition bedrock_throttled (modelId : string) (body : json) : result json :=
  Raise (TransportError "ThrottlingException").

(** A request with retrieval switched on. *)
Definition event_rag : LambdaFunction.event :=
  LambdaFunction.MkEvent
    (LambdaFunction.Params
       {[ "prompt" := "Capital of France?"; "enable_rag" := "True" ]}).

(** [n] times the character [c]. *)
Fixpoint repeat_char (c : ascii) (n : nat) : string :=
  match n with
  | O => ""
  | S n' => String c (repeat_char c n')
  end.

(** The keys [s3.upload_file] has been called for, in the order of the
    calls. *)
Definition upload_keys (t : list ExtractToS3.event) : list string :=
  omap (fun e => match e with ExtractToS3.UploadFile k => Some k | _ => None end) t.

(** The archive members named by the first [count] records. *)
Definition member_of (doc : ExtractToS3.page) : list string :=
  match ExtractToS3.Filename doc with
  | Some filename => ["evidence/wikipedia/" +:+ filename]
  | None => []
  end.

Definition listed_members (records : list ExtractToS3.record) : list string :=
  flat_map (fun r => flat_map member_of
                       (default [] (ExtractToS3.EntityPages r))) records.

(** What [extract_and_upload] keeps true of its sets and of what it has
    run, for the members [present] under the output directory at the start
    and the members [listed] it may meet. *)
Definition extract_inv (s3_upload_file : string → result unit)
    (present : gset string) (listed : list string)
    (st : ExtractToS3.state) : Prop :=
  ExtractToS3.uploaded_files st ⊆ ExtractToS3.extracted_files st ∧
  (∀ k, ExtractToS3.UploadFile k ∈ ExtractToS3.trace st →
        k ∈ ExtractToS3.extracted_files st ∧ k ∈ listed) ∧
  NoDup (upload_keys (ExtractToS3.trace st)) ∧
  (∀ k, k ∈ ExtractToS3.uploaded_files st ↔
        ExtractToS3.UploadFile k ∈ ExtractToS3.trace st
        ∧ is_ok (s3_upload_file k) = true) ∧
  present ⊆ ExtractToS3.local_files st ∧
  (∀ m, ExtractToS3.RunTar m ∈ ExtractToS3.trace st →
        (m ∉ present) ∧ m ∈ listed).

(** Collaborators of the extraction: [tar] fails for one member, the upload
    for another. *)
Definition tar_fails_for_b (member : string) : bool :=
  negb (String.eqb member "evidence/wikipedia/b.txt").

Definition upload_fails_for_c (key : string) : result unit :=
  if String.eqb key "evidence/wikipedia/c.txt"
  then Raise (TransportError "EndpointConnectionError") else Ok tt.

Definition three_records_data : list ExtractToS3.record :=
  [ExtractToS3.MkRecord (Some [ExtractToS3.MkPage (Some "a.txt");
                               ExtractToS3.MkPage (Some "b.txt")]);
   ExtractToS3.MkRecord None;
   ExtractToS3.MkRecord (Some [ExtractToS3.MkPage (Some "c.txt");
                               ExtractToS3.MkPage (Some "a.txt");
                               ExtractToS3.MkPage (Some "c.txt")])].




(** ** Facts about [split] and [join] *)

Section StringFacts.

Lemma sapp_nil_r (s : string) : s +:+ "" = s.
Proof. induction s as [|c s IH]; [done|]. cbn [String.append]. by rewrite IH. Qed.

Lemma sapp_assoc (a b c : string) : (a +:+ b) +:+ c = a +:+ (b +:+ c).
Proof. induction a as [|x a IH]; [done|]. cbn [String.append]. by rewrite IH. Qed.

Lemma sapp_snoc (a : string) (c : ascii) (s : string) :
  (a +:+ String c "") +:+ s = a +:+ String c s.
Proof. by rewrite sapp_assoc. Qed.

Lemma emit_word (w : string) : truthy w = true → emit w = [w].
Proof. by destruct w. Qed.

Lemma truthy_app_l (a b : string) : truthy a = true → truthy (a +:+ b) = true.
Proof. by destruct a. Qed.

Lemma nospace_app (a b : string) :
  nospace (a +:+ b) = nospace a && nospace b.
Proof.
  induction a as [|c a IH]; [done|].
  cbn [String.append nospace]. rewrite IH. by destruct (isspace c).
Qed.

(** Reading a whitespace-free block only extends the current word. *)
Lemma split_go_nospace (w cur s : string) :
  nospace w = true → split_go cur (w +:+ s) = split_go (cur +:+ w) s.
Proof.
  revert cur. induction w as [|c w IH]; intros cur Hw.
  - by rewrite sapp_nil_r.
  - cbn [nospace] in Hw. apply andb_prop in Hw as [Hc Hw].
    cbn [String.append split_go]. apply negb_true_iff in Hc. rewrite Hc.
    rewrite IH; [|done]. by rewrite sapp_snoc.
Qed.

(** A whitespace character cuts the text: what comes before and what comes
    after are split independently. *)
Lemma split_go_cut (s1 : string) (c : ascii) (s2 cur : string) :
  isspace c = true →
  split_go cur (s1 +:+ String c s2) = split_go cur s1 ++ split_go "" s2.
Proof.
  intros Hc. revert cur. induction s1 as [|x s1 IH]; intros cur.
  - cbn [String.append split_go]. by rewrite Hc.
  - cbn [String.append split_go]. destruct (isspace x).
    + by rewrite IH, <- List.app_assoc.
    + apply IH.
Qed.

Lemma split_cut (s1 : string) (c : ascii) (s2 : string) :
  isspace c = true → split (s1 +:+ String c s2) = split s1 ++ split s2.
Proof. apply split_go_cut. Qed.

Lemma split_space_head (c : ascii) (s : string) :
  isspace c = true → split (String c s) = split s.
Proof. intros Hc. unfold split. cbn [split_go]. by rewrite Hc. Qed.

Lemma split_word (w : string) : is_word w = true → split w = [w].
Proof.
  intros [Ht Hn]%andb_prop. unfold split.
  pose proof (split_go_nospace w "" "" Hn) as E.
  rewrite sapp_nil_r in E. rewrite E. cbn. by apply emit_word.
Qed.

(** Everything [split] returns is a word. *)
Lemma split_go_words (s cur : string) :
  nospace cur = true → Forall (fun w => is_word w = true) (split_go cur s).
Proof.
  revert cur. induction s as [|c s IH]; intros cur Hcur.
  - destruct cur; [constructor|]. repeat constructor. unfold is_word. by rewrite Hcur.
  - cbn [split_go]. destruct (isspace c) eqn:Hc.
    + apply Forall_app. split; [|by apply IH].
      destruct cur; [constructor|]. repeat constructor. unfold is_word. by rewrite Hcur.
    + apply IH. rewrite nospace_app, Hcur. cbn [nospace]. by rewrite Hc.
Qed.

Lemma split_words (s : string) : Forall (fun w => is_word w = true) (split s).
Proof. by apply split_go_words. Qed.

(** Joining with a blank and splitting again flattens the parts' words. *)
Lemma split_join (parts : list string) :
  split (join " " parts) = concat (map split parts).
Proof.
  induction parts as [|p [|q rest] IH]; [done| |].
  - cbn [join map concat]. by rewrite List.app_nil_r.
  - change (join " " (p :: q :: rest))
      with (p +:+ String space (join " " (q :: rest))).
    rewrite split_cut by done. by rewrite IH.
Qed.

Lemma concat_split_words (ws : list string) :
  Forall (fun w => is_word w = true) ws → concat (map split ws) = ws.
Proof.
  induction 1 as [|w ws Hw _ IH]; [done|].
  cbn [map concat]. by rewrite split_word, IH.
Qed.

(** [' '.join(ws).split() == ws] for a list of words. *)
Lemma split_join_words (ws : list string) :
  Forall (fun w => is_word w = true) ws → split (join " " ws) = ws.
Proof. intros H. by rewrite split_join, concat_split_words. Qed.

Lemma join_truthy (ws : list string) :
  Forall (fun w => is_word w = true) ws → ws ≠ [] → truthy (join " " ws) = true.
Proof.
  intros H Hne. destruct H as [|w ws Hw _]; [done|].
  apply andb_prop in Hw as [Hw _].
  destruct ws; [done|]. by apply truthy_app_l.
Qed.

End StringFacts.

(** ** The windowed chunker of build_faiss_index.py *)

Section Windows.

Import BuildFaissIndex.

Lemma len_nonneg {A} (l : list A) : 0 ≤ len l.
Proof. unfold len. lia. Qed.

(** Slices taken at a position inside the list, with a non-negative width. *)
Lemma slice_window {A} (l : list A) (i m : Z) :
  0 ≤ i → 0 ≤ m →
  slice l i (i + m) = take (Z.to_nat m) (drop (Z.to_nat i) l).
Proof.
  intros Hi Hm. unfold slice, slice_bound.
  destruct (Z.ltb_spec i 0) as [?|_]; [lia|].
  destruct (Z.ltb_spec (i + m) 0) as [?|_]; [lia|].
  assert (Hn : len l = Z.of_nat (length l)) by done.
  destruct (Z.le_gt_cases i (len l)) as [Hle|Hgt].
  - rewrite (Z.min_l i) by lia.
    destruct (Z.le_gt_cases (i + m) (len l)) as [Hle'|Hgt'].
    + rewrite Z.min_l by lia. f_equal. lia.
    + rewrite Z.min_r by lia.
      rewrite !take_ge; [done| |]; rewrite length_drop; lia.
  - rewrite !drop_ge by lia. by rewrite !take_nil.
Qed.

Lemma slice_length_le {A} (l : list A) (i m : Z) :
  0 ≤ i → 0 ≤ m → len (slice l i (i + m)) ≤ m.
Proof.
  intros Hi Hm. rewrite slice_window by done.
  unfold len. rewrite length_take. lia.
Qed.

Lemma fold_chunk_step (words : list string) (m : Z) (starts : list Z)
    (acc : list string) :
  fold_left (chunk_step words m) starts acc =
  acc ++ List.filter truthy
           (map (fun i => join " " (slice words i (i + m))) starts).
Proof.
  revert acc. induction starts as [|i starts IH]; intros acc.
  - by rewrite List.app_nil_r.
  - cbn [fold_left map List.filter]. rewrite IH. unfold chunk_step.
    destruct (truthy _); [|done]. by rewrite <- List.app_assoc.
Qed.

(** The number of windows [range] yields. *)
Lemma window_count_bounds (n s : Z) :
  0 ≤ n → 0 < s →
  n ≤ Z.of_nat (range_len n s) * s ∧
  (0 < n → (Z.of_nat (range_len n s) - 1) * s < n ∧ (0 < range_len n s)%nat).
Proof.
  intros Hn Hs. unfold range_len.
  pose proof (Z.mul_div_le (n + s - 1) s Hs) as Hlo.
  pose proof (Z.mul_succ_div_gt (n + s - 1) s Hs) as Hhi.
  assert (0 ≤ (n + s - 1) / s) by (apply Z.div_pos; lia).
  rewrite Z2Nat.id by done. split; [nia|].
  intros Hpos. assert (0 < (n + s - 1) / s) by nia. split; [nia|lia].
Qed.

Lemma window_start_lt (n s : Z) (j : nat) :
  0 ≤ n → 0 < s → (j < range_len n s)%nat → Z.of_nat j * s < n.
Proof.
  intros Hn Hs Hj.
  destruct (Z.eq_dec n 0) as [->|Hne].
  - unfold range_len in Hj.
    rewrite Z.div_small in Hj by lia. simpl in Hj. lia.
  - destruct (window_count_bounds n s Hn Hs) as [_ Hb].
    destruct Hb as [Hb _]; [lia|]. nia.
Qed.

Lemma range0_pos (n s : Z) :
  0 < s →
  range0 n s = Ok (map (fun j => Z.of_nat j * s) (seq 0 (range_len n s))).
Proof.
  intros Hs. unfold range0.
  destruct (Z.eqb_spec s 0) as [?|_]; [lia|].
  by destruct (Z.ltb_spec s 0) as [?|_]; [lia|].
Qed.

(** With a positive stride and a positive width every window is a run of
    [max_words] words (fewer at the end of the text), and none is dropped. *)
Lemma chunk_text_windows (text : string) (max_words overlap : Z) :
  0 < max_words → overlap < max_words →
  chunk_text text max_words overlap =
  Ok (map (fun j => join " " (take (Z.to_nat max_words)
                      (drop (j * Z.to_nat (max_words - overlap)) (split text))))
          (seq 0 (range_len (len (split text)) (max_words - overlap)))).
Proof.
  intros Hm Ho. unfold chunk_text.
  rewrite range0_pos by lia. rewrite fold_chunk_step. cbn [app]. f_equal.
  rewrite map_map.
  set (n := len (split text)). set (s := max_words - overlap).
  assert (Hs : 0 < s) by (unfold s; lia).
  assert (Hwin : ∀ j, (j < range_len n s)%nat →
    join " " (slice (split text) (Z.of_nat j * s) (Z.of_nat j * s + max_words)) =
    join " " (take (Z.to_nat max_words) (drop (j * Z.to_nat s) (split text))) ∧
    truthy (join " " (take (Z.to_nat max_words)
                        (drop (j * Z.to_nat s) (split text)))) = true).
  { intros j Hj.
    pose proof (window_start_lt n s j (len_nonneg _) Hs Hj) as Hlt.
    rewrite slice_window by nia.
    replace (Z.to_nat (Z.of_nat j * s)) with (j * Z.to_nat s)%nat by nia.
    split; [done|]. apply join_truthy.
    - apply Forall_take, Forall_drop, split_words.
    - intros Hnil. apply (f_equal length) in Hnil.
      rewrite length_take, length_drop in Hnil. unfold n, len in Hlt.
      simpl in Hnil. nia. }
  induction (range_len n s) as [|c IH]; [done|].
  rewrite seq_S, !map_app, List.filter_app. cbn [map List.filter Nat.add].
  destruct (Hwin c ltac:(lia)) as [-> ->].
  rewrite IH; [done|]. intros j Hj. apply Hwin. lia.
Qed.

Lemma slice_words (words : list string) (i j : Z) :
  Forall (fun w => is_word w = true) words →
  Forall (fun w => is_word w = true) (slice words i j).
Proof. intros H. unfold slice. by apply Forall_take, Forall_drop. Qed.

(** The words of the chunks are the windows themselves. *)
Lemma chunk_words_windows (words : list string) (M S cnt : nat) :
  Forall (fun w => is_word w = true) words →
  chunk_words (map (fun j => join " " (take M (drop (j * S) words))) (seq 0 cnt))
  = map (fun j => take M (drop (j * S) words)) (seq 0 cnt).
Proof.
  intros Hw. unfold chunk_words. rewrite map_map. apply map_ext.
  intros j. apply split_join_words. by apply Forall_take, Forall_drop.
Qed.

Lemma strip_overlap_snoc {A} (o : nat) (l : list (list A)) (x : list A) :
  l ≠ [] → strip_overlap o (l ++ [x]) = strip_overlap o l ++ drop o x.
Proof.
  destruct l as [|c rest]; [done|]. intros _. cbn [app strip_overlap].
  rewrite map_app, concat_app. cbn [map concat].
  by rewrite List.app_nil_r, List.app_assoc.
Qed.

Lemma strip_overlap_elem {A} (o : nat) (l : list (list A)) (x : A) :
  x ∈ strip_overlap o l → ∃ c, c ∈ l ∧ x ∈ c.
Proof.
  destruct l as [|c rest]; cbn [strip_overlap]; [by intros ?%elem_of_nil|].
  intros [Hx|Hx]%elem_of_app.
  - exists c. split; [left|done].
  - apply list_elem_of_In, in_concat in Hx as (y & Hy & Hx).
    apply in_map_iff in Hy as (c' & <- & Hc').
    exists c'. split; [right; by apply list_elem_of_In|].
    apply list_elem_of_In in Hx. by apply (subseteq_drop o c').
Qed.

Lemma drop_take_window {A} (l : list A) (o M a : nat) :
  (o ≤ M)%nat → drop o (take M (drop a l)) = take (M - o) (drop (a + o) l).
Proof.
  intros Ho. rewrite <- drop_drop.
  rewrite (take_drop_commute (drop a l) (M - o) o). do 2 f_equal. lia.
Qed.

(** Windows of [M] items taken every [S] items, with the [M - S] repeated
    items removed, rebuild the prefix they span. *)
Lemma windows_strip {A} (ws : list A) (M S cnt : nat) :
  (0 < S ≤ M)%nat →
  strip_overlap (M - S)
    (map (fun j => take M (drop (j * S) ws)) (seq 0 (Datatypes.S cnt)))
  = take (cnt * S + M) ws.
Proof.
  intros HS. induction cnt as [|cnt IH].
  - cbn [seq map strip_overlap concat Nat.mul Nat.add].
    by rewrite drop_0, List.app_nil_r.
  - rewrite seq_S, map_app. cbn [map Nat.add].
    rewrite strip_overlap_snoc by (cbn [seq map]; discriminate).
    rewrite IH.
    replace (drop (M - S) (take M (drop (Datatypes.S cnt * S) ws)))
      with (take S (drop (cnt * S + M) ws)).
    + rewrite take_take_drop. f_equal. lia.
    + rewrite drop_take_window by lia. f_equal; [lia|f_equal; lia].
Qed.

End Windows.

(** ** The sentence chunker of embd_to_aoss.py *)

Section Sentences.

Import EmbdToAoss.

(** Cutting at sentence separators loses no word and adds none. *)
Lemma re_split_go_words (s cur : string) (after_punct skipping : bool) :
  (skipping = true → cur = "") →
  concat (map split (re_split_go cur after_punct skipping s)) = split (cur +:+ s).
Proof.
  revert cur after_punct skipping.
  induction s as [|c s IH]; intros cur ap sk Hsk.
  - cbn [re_split_go map concat]. by rewrite List.app_nil_r, sapp_nil_r.
  - cbn [re_split_go]. destruct (isspace c) eqn:Hc.
    + destruct sk.
      * rewrite IH by done. rewrite (Hsk eq_refl). cbn [String.append].
        by rewrite split_space_head.
      * destruct ap.
        -- cbn [map concat]. rewrite IH by done. cbn [String.append].
           by rewrite split_cut.
        -- rewrite IH by done. by rewrite sapp_snoc.
    + rewrite IH by done. by rewrite sapp_snoc.
Qed.

Lemma re_split_words (text : string) :
  concat (map split (re_split text)) = split text.
Proof. unfold re_split. by rewrite re_split_go_words. Qed.

Lemma chunk_finish_words (a : acc) :
  concat (map split (chunk_finish a)) =
  concat (map split (chunks a)) ++ concat (map split (current a)).
Proof.
  unfold chunk_finish. destruct (current a) as [|s cur] eqn:E.
  - by rewrite List.app_nil_r.
  - rewrite map_app, concat_app. cbn [map concat].
    by rewrite split_join, List.app_nil_r.
Qed.

Lemma chunk_loop_words (max_words : Z) (sentences : list string) (a : acc) :
  concat (map split (chunk_finish (fold_left (chunk_step max_words) sentences a)))
  = concat (map split (chunks a)) ++ concat (map split (current a))
      ++ concat (map split sentences).
Proof.
  revert a. induction sentences as [|s rest IH]; intros a.
  - cbn [fold_left map concat]. by rewrite chunk_finish_words, List.app_nil_r.
  - cbn [fold_left]. rewrite IH. unfold chunk_step.
    destruct (count a + len (split s) >? max_words); cbn [chunks current].
    + rewrite map_app, concat_app. cbn [map concat].
      by rewrite split_join, !List.app_nil_r, <- !List.app_assoc.
    + rewrite map_app, concat_app. cbn [map concat].
      by rewrite List.app_nil_r, <- !List.app_assoc.
Qed.

Lemma sentence_chunks_words (text : string) (max_words : Z) :
  concat (chunk_words (chunk_text text max_words)) = split text.
Proof.
  unfold chunk_words, chunk_text. rewrite chunk_loop_words.
  cbn [chunks current map concat app]. apply re_split_words.
Qed.

Lemma strip_overlap_0 {A} (l : list (list A)) : strip_overlap 0 l = concat l.
Proof.
  destruct l as [|c rest]; [done|]. cbn [strip_overlap concat]. f_equal.
  f_equal. induction rest as [|x rest IH]; [done|].
  cbn [map]. by rewrite drop_0, IH.
Qed.

End Sentences.

(** A word recovered by [strip_overlap] comes from one of the chunks. *)
Lemma covered_by_chunks (overlap : nat) (cs : list string) (w : string) :
  w ∈ strip_overlap overlap (chunk_words cs) → ∃ c, c ∈ cs ∧ w ∈ split c.
Proof.
  intros (ws & Hws & Hw)%strip_overlap_elem.
  apply list_elem_of_In, in_map_iff in Hws as (c & <- & Hc).
  exists c. split; [by apply list_elem_of_In|done].
Qed.

(** ** Chunking: the claims *)

(** C2 (overlap invariant). With [max_words = 200] and [overlap = 50] and a
    text of more than 200 words, chunk [j] holds the words from position
    [150 * j] on, so each chunk starts 150 words after the one before; when
    the second of two neighbours is not the final chunk, which may be
    shorter, the first has 200 words and its last 50 words are the first 50
    words of the second. *)
Theorem windowed_overlap_200_50 (text : string) :
  200 < len (split text) →
  ∃ cs, BuildFaissIndex.chunk_text text 200 50 = Ok cs ∧
    (2 ≤ length cs)%nat ∧
    ∀ (j : nat) (c c' : string),
      cs !! j = Some c → cs !! S j = Some c' →
      split c = take 200 (drop (150 * j) (split text)) ∧
      split c' = take 200 (drop (150 * S j) (split text)) ∧
      ((S j + 1 < length cs)%nat →
       length (split c) = 200%nat ∧
       drop 150 (split c) = take 50 (split c') ∧
       length (take 50 (split c')) = 50%nat).
Proof.
  intros Hlen. eexists. split; [by apply chunk_text_windows|].
  change (Z.to_nat 200) with 200%nat. change (Z.to_nat (200 - 50)) with 150%nat.
  change (200 - 50) with 150.
  set (words := split text) in *. set (cnt := range_len (len words) 150).
  pose proof (split_words text) as Hwords. fold words in Hwords.
  assert (Hcnt : (2 ≤ cnt)%nat).
  { destruct (window_count_bounds (len words) 150) as [Hb _];
      [apply len_nonneg|lia|]. fold cnt in Hb. lia. }
  rewrite length_map, length_seq. split; [done|].
  intros j c c' Hj Hj'.
  apply list_lookup_fmap_Some in Hj as (i & -> & Hi).
  apply list_lookup_fmap_Some in Hj' as (i' & -> & Hi').
  apply lookup_seq in Hi as [-> _]. apply lookup_seq in Hi' as [-> _].
  cbn [Nat.add].
  rewrite !split_join_words by (by apply Forall_take, Forall_drop).
  rewrite (Nat.mul_comm 150 j), (Nat.mul_comm 150 (S j)).
  split; [done|]. split; [done|]. intros Hlast.
  pose proof (window_start_lt (len words) 150 (S (S j)) (len_nonneg _)
                ltac:(lia) ltac:(fold cnt; lia)) as Hpos.
  unfold len in Hpos.
  split; [rewrite length_take, length_drop; lia|]. split.
  - rewrite drop_take_window by lia. rewrite take_take.
    f_equal. f_equal. lia.
  - rewrite !length_take, length_drop. lia.
Qed.

(** C2 on a text of 460 words, which gives four chunks. *)
Lemma windowed_overlap_200_50_witness :
  200 < len (split (plain_text 460)) ∧
  ∃ cs, BuildFaissIndex.chunk_text (plain_text 460) 200 50 = Ok cs ∧
    (2 ≤ length cs)%nat ∧
    ∀ (j : nat) (c c' : string),
      cs !! j = Some c → cs !! S j = Some c' →
      split c = take 200 (drop (150 * j) (split (plain_text 460))) ∧
      split c' = take 200 (drop (150 * S j) (split (plain_text 460))) ∧
      ((S j + 1 < length cs)%nat →
       length (split c) = 200%nat ∧
       drop 150 (split c) = take 50 (split c') ∧
       length (take 50 (split c')) = 50%nat).
Proof.
  assert (H : 200 < len (split (plain_text 460))) by (vm_compute; reflexivity).
  split; [exact H|]. exact (windowed_overlap_200_50 (plain_text 460) H).
Defined.

(** The windowed chunker keeps to [max_words] words per chunk. *)
Lemma windowed_chunk_bound (text : string) (max_words overlap : Z)
    (cs : list string) (c : string) :
  0 ≤ max_words →
  BuildFaissIndex.chunk_text text max_words overlap = Ok cs →
  c ∈ cs → len (split c) ≤ max_words.
Proof.
  intros Hm Hcs Hc. unfold BuildFaissIndex.chunk_text, range0 in Hcs.
  destruct (Z.eqb_spec (max_words - overlap) 0) as [?|_]; [done|].
  destruct (Z.ltb_spec (max_words - overlap) 0) as [?|Hs].
  { injection Hcs as <-. by apply elem_of_nil in Hc. }
  injection Hcs as <-. rewrite fold_chunk_step in Hc. cbn [app] in Hc.
  apply list_elem_of_In, filter_In in Hc as [Hc _].
  apply in_map_iff in Hc as (i & <- & Hi).
  apply in_map_iff in Hi as (j & <- & _).
  rewrite split_join_words by apply slice_words, split_words.
  apply slice_length_le; nia.
Qed.

(** C3 (chunk size bound), at the input where the code departs from it: the
    sentence chunker of embd_to_aoss.py never cuts inside a sentence, so a
    text of 201 words without a terminator comes back as one chunk of 201
    words (after an empty chunk), above [max_words = 200]. *)
Theorem sentence_chunk_exceeds_max_words :
  EmbdToAoss.chunk_text (plain_text 201) 200 = [""; plain_text 201] ∧
  len (split (plain_text 201)) = 201 ∧
  ¬ (∀ c, c ∈ EmbdToAoss.chunk_text (plain_text 201) 200 → len (split c) ≤ 200).
Proof.
  assert (E : EmbdToAoss.chunk_text (plain_text 201) 200 = [""; plain_text 201])
    by (vm_compute; reflexivity).
  assert (L : len (split (plain_text 201)) = 201) by (vm_compute; reflexivity).
  split; [exact E|]. split; [exact L|].
  intros H. specialize (H (plain_text 201)). rewrite E, L in H.
  assert (201 ≤ 200); [|lia]. apply H. right. left.
Qed.

(** C4 does not hold for a negative overlap, which the precondition
    [overlap < max_words] allows: the stride passes the window width and the
    word in the gap is in no chunk. *)
Lemma chunk_coverage_negative_overlap :
  -1 < 2 ∧
  BuildFaissIndex.chunk_text "a b c" 2 (-1) = Ok ["a b"] ∧
  "c" ∈ split "a b c" ∧
  ¬ (∃ c, c ∈ ["a b"] ∧ "c" ∈ split c).
Proof.
  split; [lia|]. split; [vm_compute; reflexivity|]. split.
  - vm_compute. do 2 right. left.
  - intros (c & Hc & Hw). apply list_elem_of_singleton in Hc as ->.
    vm_compute in Hw. apply elem_of_cons in Hw as [?|Hw]; [done|].
    apply elem_of_cons in Hw as [?|Hw]; [done|]. by apply elem_of_nil in Hw.
Qed.

(** C4 (chunk coverage), amended. For the windowed chunker with
    [0 <= overlap < max_words], and for the sentence chunker with any
    [max_words], the chunks with the repeated [overlap] leading words of each
    later chunk removed are the word sequence of the text, and every word of
    the text is in some chunk. *)
Theorem chunk_coverage (text : string) :
  (∀ max_words overlap : Z,
     0 ≤ overlap < max_words →
     ∃ cs, BuildFaissIndex.chunk_text text max_words overlap = Ok cs ∧
       strip_overlap (Z.to_nat overlap) (chunk_words cs) = split text ∧
       ∀ w, w ∈ split text → ∃ c, c ∈ cs ∧ w ∈ split c) ∧
  (∀ max_words : Z,
     strip_overlap 0 (chunk_words (EmbdToAoss.chunk_text text max_words))
       = split text ∧
     ∀ w, w ∈ split text →
       ∃ c, c ∈ EmbdToAoss.chunk_text text max_words ∧ w ∈ split c).
Proof.
  split.
  - intros max_words overlap [Ho Hm].
    eexists. split; [apply chunk_text_windows; lia|].
    set (words := split text). set (s := max_words - overlap).
    pose proof (split_words text) as Hwords. fold words in Hwords.
    assert (Hcov : strip_overlap (Z.to_nat overlap)
              (chunk_words (map (fun j => join " " (take (Z.to_nat max_words)
                  (drop (j * Z.to_nat s) words)))
                (seq 0 (range_len (len words) s)))) = words).
    { rewrite chunk_words_windows by done.
      destruct (Z.eq_dec (len words) 0) as [Hz|Hnz].
      - unfold range_len. rewrite Hz, Z.div_small by lia.
        destruct words; [done|]. unfold len in Hz. simpl in Hz. lia.
      - pose proof (len_nonneg words) as Hn.
        destruct (window_count_bounds (len words) s Hn ltac:(lia)) as [Hup Hb].
        destruct Hb as [_ Hpos]; [lia|].
        destruct (range_len (len words) s) as [|cnt] eqn:Hc; [lia|].
        replace (Z.to_nat overlap) with (Z.to_nat max_words - Z.to_nat s)%nat
          by lia.
        rewrite windows_strip by lia. apply take_ge. unfold len in Hup. nia. }
    split; [exact Hcov|].
    intros w Hw. apply (covered_by_chunks (Z.to_nat overlap)).
    by rewrite Hcov.
  - intros max_words.
    assert (Hcov : strip_overlap 0
              (chunk_words (EmbdToAoss.chunk_text text max_words)) = split text)
      by (rewrite strip_overlap_0; apply sentence_chunks_words).
    split; [exact Hcov|].
    intros w Hw. apply (covered_by_chunks 0). by rewrite Hcov.
Qed.

(** C4 on a text of seven words with windows of three words that repeat one. *)
Lemma chunk_coverage_witness :
  0 ≤ 1 < 3 ∧
  ∃ cs, BuildFaissIndex.chunk_text "a b c d e f g" 3 1 = Ok cs ∧
    strip_overlap (Z.to_nat 1) (chunk_words cs) = split "a b c d e f g" ∧
    ∀ w, w ∈ split "a b c d e f g" → ∃ c, c ∈ cs ∧ w ∈ split c.
Proof.
  assert (H : 0 ≤ 1 < 3) by lia.
  split; [exact H|].
  exact (proj1 (chunk_coverage "a b c d e f g") 3 1 H).
Defined.

(** C8 does not hold when the overlap is larger than the window: the stride
    is negative, [range] is empty and the chunker returns no chunk without
    raising. *)
Lemma chunk_text_overlap_above_max_returns :
  3 ≥ 2 ∧ BuildFaissIndex.chunk_text "a b c" 2 3 = Ok [] ∧
  ¬ (∃ e, BuildFaissIndex.chunk_text "a b c" 2 3 = Raise e).
Proof.
  split; [lia|]. split; [vm_compute; reflexivity|].
  intros [e He]. vm_compute in He. discriminate He.
Qed.

(** C8 (chunking parameters), amended. [chunk_text] does not check its
    parameters. With [overlap = max_words] the zero stride makes [range] raise
    [ValueError] before any chunk is built; with [overlap > max_words] the
    result is the empty list and nothing is raised; with
    [overlap < max_words] it never raises. *)
Theorem chunk_text_overlap_cases (text : string) (max_words overlap : Z) :
  (overlap = max_words →
     BuildFaissIndex.chunk_text text max_words overlap
       = Raise (ValueError "range() arg 3 must not be zero")) ∧
  (max_words < overlap →
     BuildFaissIndex.chunk_text text max_words overlap = Ok []) ∧
  (overlap < max_words →
     ∃ cs, BuildFaissIndex.chunk_text text max_words overlap = Ok cs).
Proof.
  unfold BuildFaissIndex.chunk_text, range0. repeat split.
  - intros ->. by rewrite Z.sub_diag.
  - intros H. destruct (Z.eqb_spec (max_words - overlap) 0) as [?|_]; [lia|].
    by destruct (Z.ltb_spec (max_words - overlap) 0) as [_|?]; [|lia].
  - intros H. destruct (Z.eqb_spec (max_words - overlap) 0) as [?|_]; [lia|].
    destruct (Z.ltb_spec (max_words - overlap) 0) as [?|_]; [lia|]. eauto.
Qed.

(** C8 at the three kinds of parameters. *)
Lemma chunk_text_overlap_cases_witness :
  BuildFaissIndex.chunk_text "a b c" 2 2
    = Raise (ValueError "range() arg 3 must not be zero") ∧
  BuildFaissIndex.chunk_text "a b c" 2 3 = Ok [] ∧
  ∃ cs, BuildFaissIndex.chunk_text "a b c" 2 1 = Ok cs.
Proof.
  split; [exact (proj1 (chunk_text_overlap_cases "a b c" 2 2) eq_refl)|].
  split.
  - exact (proj1 (proj2 (chunk_text_overlap_cases "a b c" 2 3)) eq_refl).
  - exact (proj2 (proj2 (chunk_text_overlap_cases "a b c" 2 1)) eq_refl).
Defined.

(** ** Ingest *)

Section IngestFacts.

Import BuildFaissIndex.

Context {float32 : Type}.
Variable get_s3_text : string → string → result string.
Variable get_titan_embedding : string → result (list float32).

(** A property of the state kept by every turn of a loop is kept by the
    loop, whether it ends normally or not. *)
Lemma for_each_preserves {S A} (P : S → Prop) (body : A → M S unit)
    (xs : list A) (s : S) :
  (∀ x s, P s → P (body x s).2) → P s → P (for_each xs body s).2.
Proof.
  intros Hbody. revert s. induction xs as [|x xs IH]; intros s Hs; [done|].
  cbn [for_each]. unfold mbind, M_bind, bind.
  pose proof (Hbody x s Hs) as Hx. destruct (body x s) as [[[]|e] s']; [|done].
  by apply IH.
Qed.

Lemma process_chunk_paired (key chunk : string) (st : store float32) :
  paired get_titan_embedding st →
  paired get_titan_embedding (process_chunk get_titan_embedding key chunk st).2.
Proof.
  intros Hst. unfold process_chunk, mbind, M_bind, bind, lift, add_vector.
  destruct (get_titan_embedding chunk) as [v|e] eqn:Hv; [|done].
  unfold index_add. destruct (Nat.eqb _ _); [|done].
  unfold paired in *. cbn. apply Forall2_app; [done|]. by repeat constructor.
Qed.

Lemma process_file_paired (bucket key : string) (st : store float32) :
  paired get_titan_embedding st →
  paired get_titan_embedding
    (process_file get_s3_text get_titan_embedding bucket key st).2.
Proof.
  intros Hst. unfold process_file, mbind, M_bind, bind, lift.
  destruct (get_s3_text bucket key) as [text|e]; [|done].
  destruct (chunk_text text _ _) as [cs|e]; [|done].
  apply (for_each_preserves (paired get_titan_embedding)); [|done].
  intros. by apply process_chunk_paired.
Qed.

Lemma process_all_paired (bucket : string) (files : list string)
    (st : store float32) :
  paired get_titan_embedding st →
  paired get_titan_embedding
    (process_all get_s3_text get_titan_embedding bucket files st).2.
Proof.
  intros Hst. apply (for_each_preserves (paired get_titan_embedding)); [|done].
  intros. by apply process_file_paired.
Qed.

Lemma empty_store_paired : paired get_titan_embedding empty_store.
Proof. constructor. Qed.

(** C1 (pairing invariant). After the files are processed without an
    exception, starting from stores that are paired (the empty ones of the
    script are), the metadata list is as long as the index holds vectors and
    the record at each slot belongs to the vector at that slot: the vector is
    the embedding of the record's chunk. *)
Theorem ingest_pairing (bucket : string) (files : list string)
    (st st' : store float32) :
  paired get_titan_embedding st →
  process_all get_s3_text get_titan_embedding bucket files st = (Ok tt, st') →
  length (metadata_list st') = ntotal (index st') ∧
  ∀ (slot : nat) (r : metadata_record),
    metadata_list st' !! slot = Some r →
    ∃ v, xb (index st') !! slot = Some v ∧
         get_titan_embedding (chunk r) = Ok v.
Proof.
  intros Hst Hrun.
  pose proof (process_all_paired bucket files st Hst) as Hp.
  rewrite Hrun in Hp. cbn [snd] in Hp. unfold paired in Hp. split.
  - by apply Forall2_length in Hp.
  - intros slot r Hr.
    destruct (Forall2_lookup_l _ _ _ _ _ Hp Hr) as (v & Hv & Hrv). eauto.
Qed.

End IngestFacts.

(** C1 on two files of one chunk each, from the empty stores. *)
Lemma ingest_pairing_witness :
  let st' := (BuildFaissIndex.process_all s3_small embed_zero "bucket"
                ["a.txt"; "b.txt"] BuildFaissIndex.empty_store).2 in
  paired embed_zero (BuildFaissIndex.empty_store (float32 := Z)) ∧
  length (BuildFaissIndex.metadata_list st') = 2%nat ∧
  length (BuildFaissIndex.metadata_list st')
    = BuildFaissIndex.ntotal (BuildFaissIndex.index st') ∧
  ∀ (slot : nat) (r : BuildFaissIndex.metadata_record),
    BuildFaissIndex.metadata_list st' !! slot = Some r →
    ∃ v, BuildFaissIndex.xb (BuildFaissIndex.index st') !! slot = Some v ∧
         embed_zero (BuildFaissIndex.chunk r) = Ok v.
Proof.
  intros st'.
  assert (Hp : paired embed_zero (BuildFaissIndex.empty_store (float32 := Z)))
    by constructor.
  split; [exact Hp|]. split; [vm_compute; reflexivity|].
  apply (ingest_pairing s3_small embed_zero "bucket" ["a.txt"; "b.txt"]
           BuildFaissIndex.empty_store st' Hp).
  vm_compute. reflexivity.
Defined.

Section AossIngestFacts.

Import EmbdToAoss.

Context {vector : Type}.
Variable invoke_embedding : string → result vector.
Variable requests_post : string → vector → string → result Z.

(** One chunk of embd_to_aoss.py: whatever the collaborators do, the turn
    ends normally, the log only grows, and a chunk that is long enough has
    been sent to the embedding model. *)
Lemma aoss_process_chunk_continues (key : string) (ic : Z * string)
    (t : list (event vector)) :
  ∃ t', process_chunk invoke_embedding requests_post key ic t = (Ok tt, t ++ t') ∧
        (long_enough ic.2 = true → Embedded ic.2 ∈ t').
Proof.
  destruct ic as [i chunk]. unfold process_chunk, long_enough. cbn [snd].
  destruct (len _ <? 20).
  - exists [PrintSkipShort i]. split; [done|]. intros ?; done.
  - unfold try_except, embed_text, index_chunk, log, modify, mbind, M_bind,
      bind, lift.
    destruct (invoke_embedding chunk) as [v|e].
    + destruct (requests_post chunk v key) as [status|e].
      * destruct ((status =? 200) || (status =? 201));
          eexists; (split; [by rewrite <- !List.app_assoc|]); intros _; left.
      * eexists. split; [by rewrite <- !List.app_assoc|]. intros _. left.
    + eexists. split; [by rewrite <- !List.app_assoc|]. intros _. left.
Qed.

(** The loop of embd_to_aoss.py over the chunks of one document never stops
    on a failed chunk: it ends normally and every chunk that is long enough
    has been sent to the embedding model, also those that come after a
    failure. *)
Lemma aoss_ingest_continues (key : string) (ics : list (Z * string))
    (t : list (event vector)) :
  ∃ t', for_each ics (process_chunk invoke_embedding requests_post key) t
          = (Ok tt, t ++ t') ∧
        ∀ ic, ic ∈ ics → long_enough ic.2 = true → Embedded ic.2 ∈ t'.
Proof.
  revert t. induction ics as [|ic ics IH]; intros t.
  - exists []. split; [by rewrite List.app_nil_r|]. by intros ? ?%elem_of_nil.
  - cbn [for_each]. unfold mbind, M_bind, bind.
    destruct (aoss_process_chunk_continues key ic t) as (t1 & -> & H1).
    destruct (IH (t ++ t1)) as (t2 & -> & H2).
    exists (t1 ++ t2). split; [by rewrite List.app_assoc|].
    intros ic' [->|Hin]%elem_of_cons Hlong; apply elem_of_app; auto.
Qed.

End AossIngestFacts.

(** C9 (a failed chunk is skipped), at the input where the code departs from
    it. [process_file] of build_faiss_index.py has no handler around the
    embedding call: on a document of two chunks whose first embedding fails,
    the exception leaves [process_file], the stores stay empty and the second
    chunk, whose embedding would succeed, is never added. *)
Theorem faiss_ingest_aborts_on_failed_chunk :
  BuildFaissIndex.chunk_text two_chunk_text 200 50 = Ok [two_chunk_text; "word"] ∧
  is_ok (embedding_fails_once "word") = true ∧
  BuildFaissIndex.process_file s3_two_chunks embedding_fails_once
      "bucket" "doc.txt" BuildFaissIndex.empty_store
    = (Raise (TransportError "ThrottlingException"), BuildFaissIndex.empty_store).
Proof. repeat split; vm_compute; reflexivity. Qed.

(** ** Retrieval *)

Section RetrievalFacts.

Import BuildFaissIndex FaissQuery.

Context {float32 dist : Type}.
Variable fvec_L2sqr : list float32 → list float32 → dist.
Variable dist_leb : dist → dist → bool.

(** [search] always fills [k] result slots. *)
Lemma search_length (index : IndexFlatL2 float32) (q : list float32) (k : nat) :
  length (search fvec_L2sqr dist_leb index q k).2 = k.
Proof.
  unfold search. cbn [snd].
  rewrite length_app, length_map, length_replicate, length_take. lia.
Qed.

Lemma traverse_length {A B} (f : A → result B) (xs : list A) (ys : list B) :
  traverse f xs = Ok ys → length ys = length xs.
Proof.
  revert ys. induction xs as [|x xs IH]; intros ys; cbn [traverse].
  - by intros [= <-].
  - destruct (f x); [|done]. destruct (traverse f xs) eqn:E; [|done].
    intros [= <-]. cbn. f_equal. by apply IH.
Qed.

(** When [retrieve_top_k] returns, it returns [k] records, also when the
    index holds fewer: the label -1 of an unfilled slot reads the last
    record. *)
Lemma retrieve_top_k_length (index : IndexFlatL2 float32) (q : list float32)
    (metadata : list metadata_record) (k : nat) (rs : list metadata_record) :
  retrieve_top_k fvec_L2sqr dist_leb index q metadata k = Ok rs →
  length rs = k.
Proof.
  unfold retrieve_top_k.
  pose proof (search_length index q k) as Hk.
  destruct (search _ _ index q k) as [distances labels]. cbn [snd] in Hk.
  intros H%traverse_length. congruence.
Qed.

(** C7 (empty index), at the input where the code departs from it: on an
    index without vectors, with its empty metadata list, [search] answers
    the label -1 in each of the [k + 1] slots asked for and [metadata[-1]]
    raises [IndexError]; no empty sequence is returned. This is so for the
    [TOP_K = 5] of the script. *)
Theorem retrieve_top_k_empty_index_raises (dim : nat) (q : list float32)
    (k : nat) :
  (search fvec_L2sqr dist_leb {| d := dim; xb := [] |} q (S k)).2
    = replicate (S k) (-1) ∧
  retrieve_top_k fvec_L2sqr dist_leb {| d := dim; xb := [] |} q [] (S k)
    = Raise IndexError ∧
  retrieve_top_k fvec_L2sqr dist_leb {| d := dim; xb := [] |} q [] TOP_K
    = Raise IndexError.
Proof. repeat split; reflexivity. Qed.

End RetrievalFacts.

(** With one stored vector and [k = 5] the one record comes back five
    times. *)
Lemma retrieve_top_k_pads_with_last :
  FaissQuery.retrieve_top_k sum_sq Z.leb
    {| BuildFaissIndex.d := 1; BuildFaissIndex.xb := [[3]] |} [0]
    [BuildFaissIndex.MkRecord "only chunk" "a.txt"] 5
  = Ok (replicate 5 (BuildFaissIndex.MkRecord "only chunk" "a.txt")).
Proof. vm_compute. reflexivity. Qed.

(** ** Generation dispatch *)

Section DispatchFacts.

Lemma prefix_app_l (p q s : string) :
  String.prefix (p +:+ q) s = true → String.prefix p s = true.
Proof.
  revert s. induction p as [|c p IH]; intros s; [by destruct s|].
  destruct s as [|c' s]; cbn [String.append String.prefix]; [done|].
  destruct (ascii_dec c c'); [apply IH|done].
Qed.

Lemma startswith_shorter (s p q : string) :
  startswith s p = false → startswith s (p +:+ q) = false.
Proof.
  unfold startswith. intros Hp.
  destruct (String.prefix (p +:+ q) s) eqn:E; [|done].
  apply prefix_app_l in E. congruence.
Qed.

Lemma unknown_family_prefixes (model_id : string) :
  known_family model_id = false →
  startswith model_id "anthropic.claude" = false ∧
  startswith model_id "amazon.titan-text" = false ∧
  startswith model_id "mistral." = false ∧
  startswith model_id "mistral.mistral-7b" = false ∧
  startswith model_id "cohere.command-r" = false.
Proof.
  unfold known_family. intros H.
  apply orb_false_elim in H as [H Hc]. apply orb_false_elim in H as [H Hm].
  apply orb_false_elim in H as [Ha Ht].
  repeat split; try done.
  - by apply (startswith_shorter model_id "mistral." "mistral-7b").
  - by apply (startswith_shorter model_id "cohere.command" "-r").
Qed.

Variable bedrock_invoke_model : string → json → result json.

(** C6 (unsupported model). For a model identifier outside the four known
    families, both dispatchers raise [ValueError] naming the model, and the
    log of transport calls is the one they were started with: nothing has
    been sent to Bedrock. *)
Theorem unsupported_model_rejected (prompt model_id : string) (t : list call) :
  known_family model_id = false →
  LambdaFunction.generate_answer bedrock_invoke_model prompt model_id t
    = (Raise (ValueError ("Unsupported model_id: " +:+ model_id)), t) ∧
  FaissQuery.call_bedrock_model bedrock_invoke_model prompt model_id t
    = (Raise (ValueError ("Unsupported model: " +:+ model_id)), t).
Proof.
  intros (Ha & Ht & Hm & Hm7 & Hc)%unknown_family_prefixes.
  unfold LambdaFunction.generate_answer, FaissQuery.call_bedrock_model,
    LambdaFunction.request_body, FaissQuery.request_body,
    mbind, M_bind, bind, lift.
  by rewrite Ha, Ht, Hm, Hm7, Hc.
Qed.

End DispatchFacts.

(** C6 on a model identifier of no known family. *)
Lemma unsupported_model_rejected_witness :
  known_family "meta.llama3-8b-instruct-v1:0" = false ∧
  LambdaFunction.generate_answer bedrock_titan "Who?"
      "meta.llama3-8b-instruct-v1:0" []
    = (Raise (ValueError ("Unsupported model_id: "
                            +:+ "meta.llama3-8b-instruct-v1:0")), []) ∧
  FaissQuery.call_bedrock_model bedrock_titan "Who?"
      "meta.llama3-8b-instruct-v1:0" []
    = (Raise (ValueError ("Unsupported model: "
                            +:+ "meta.llama3-8b-instruct-v1:0")), []).
Proof.
  assert (H : known_family "meta.llama3-8b-instruct-v1:0" = false)
    by reflexivity.
  split; [exact H|].
  exact (unsupported_model_rejected bedrock_titan "Who?"
           "meta.llama3-8b-instruct-v1:0" [] H).
Defined.

(** ** The Lambda handler and the prompts *)

Section HandlerFacts.

Import LambdaFunction.

Variable bedrock_invoke_model : string → json → result json.
Variable requests_post : string → json → result (Z * json).
Variables (AOSS_ENDPOINT INDEX_NAME : string).

Lemma truthy_nonempty (s : string) : s ≠ "" → truthy s = true.
Proof. by destruct s. Qed.


(** With a prompt the handler is the chain of prompt assembly, generation
    and stripping of the answer. *)
Lemma handler_with_prompt (ev : event) (params : gmap string string)
    (question : string) (t : list call) :
  queryStringParameters ev = Params params →
  params !! "prompt" = Some question → question ≠ "" →
  lambda_handler bedrock_invoke_model requests_post
      AOSS_ENDPOINT INDEX_NAME ev t =
  (prompt ← full_prompt bedrock_invoke_model requests_post
          AOSS_ENDPOINT INDEX_NAME (param_use_rag params) question;
   answer ← generate_answer bedrock_invoke_model prompt (param_model_id params);
   stripped ← lift (strip_answer answer);
   mret (answer_response stripped)) t.
Proof.
  intros Hev Hq Hne. unfold lambda_handler. rewrite Hev. cbn beta iota zeta.
  rewrite Hq. cbn [from_option]. unfold id.
  by rewrite (truthy_nonempty question Hne).
Qed.



End HandlerFacts.



Section PromptFacts.

Context {float32 dist : Type}.
Variable fvec_L2sqr : list float32 → list float32 → dist.
Variable dist_leb : dist → dist → bool.
Variable np_array : json → result (list float32).
Variable bedrock_invoke_model : string → json → result json.
Variable requests_post : string → json → result (Z * json).
Variables (aoss_endpoint index_name embed_model_id gen_model_id : string).
Variable top_k : Z.


End PromptFacts.



(** ** Further properties of the chunkers *)

Section ChunkerFacts.

Lemma join_nil_inv (ws : list string) :
  Forall (fun w => is_word w = true) ws → join " " ws = "" → ws = [].
Proof.
  intros H E. destruct ws as [|w ws]; [done|].
  assert (truthy (join " " (w :: ws)) = true) by (by apply join_truthy).
  by rewrite E in H0.
Qed.

(** X1 (shape of a window). Whatever the parameters, a chunk the windowed
    chunker returns is not empty and is the single-blank join of its own
    words, so no other whitespace of the document survives in it; with a
    non-negative [max_words] it has between 1 and [max_words] words. *)
Theorem windowed_chunks_normalised (text : string) (max_words overlap : Z)
    (cs : list string) (c : string) :
  BuildFaissIndex.chunk_text text max_words overlap = Ok cs →
  c ∈ cs →
  c ≠ "" ∧ join " " (split c) = c ∧
  (0 ≤ max_words → 1 ≤ len (split c) ≤ max_words).
Proof.
  intros Hcs Hc.
  assert (Hshape : truthy c = true ∧
            ∃ i, c = join " " (slice (split text) i (i + max_words))).
  { unfold BuildFaissIndex.chunk_text in Hcs.
    destruct (range0 _ _) as [starts|e]; [|done].
    injection Hcs as <-. rewrite fold_chunk_step in Hc. cbn [app] in Hc.
    apply list_elem_of_In, filter_In in Hc as [Hc Ht].
    apply in_map_iff in Hc as (i & <- & _). eauto. }
  destruct Hshape as [Ht (i & ->)].
  pose proof (slice_words (split text) i (i + max_words) (split_words text)) as Hw.
  split; [by intros E; rewrite E in Ht|].
  rewrite split_join_words by done. split; [done|].
  intros Hm. split.
  - destruct (slice (split text) i (i + max_words)) eqn:E; [done|].
    unfold len. cbn [length]. lia.
  - rewrite <- (split_join_words _ Hw).
    by apply (windowed_chunk_bound text max_words overlap cs).
Qed.

(** X1 on the second window of a text of seven words. *)
Lemma windowed_chunks_normalised_witness :
  "c d e" ≠ "" ∧ join " " (split "c d e") = "c d e" ∧
  (0 ≤ 3 → 1 ≤ len (split "c d e") ≤ 3).
Proof.
  apply (windowed_chunks_normalised "a  b c d e f g" 3 1
           ["a b c"; "c d e"; "e f g"; "g"] "c d e").
  - vm_compute. reflexivity.
  - right. left.
Defined.

(** X2 (number of windows). With a positive [max_words] and
    [overlap < max_words] the chunker returns one chunk for every
    [max_words - overlap] words of the text, rounded up: none for a text
    without words, otherwise the least count whose strides reach the end. *)
Theorem windowed_chunk_count (text : string) (max_words overlap : Z) :
  0 < max_words → overlap < max_words →
  ∃ cs, BuildFaissIndex.chunk_text text max_words overlap = Ok cs ∧
    (split text = [] → cs = []) ∧
    (split text ≠ [] →
       (len cs - 1) * (max_words - overlap) < len (split text)
         ≤ len cs * (max_words - overlap)).
Proof.
  intros Hm Ho. eexists. split; [by apply chunk_text_windows|].
  set (n := len (split text)). set (s := max_words - overlap).
  set (cs := map _ (seq 0 (range_len n s))).
  assert (Hlen : len cs = Z.of_nat (range_len n s))
    by (unfold cs, len; by rewrite length_map, length_seq).
  split.
  - intros E. unfold cs, n. rewrite E. unfold range_len, len. cbn [length].
    rewrite Z.div_small by lia. done.
  - intros Hne. rewrite Hlen. assert (0 < n).
    { unfold n, len. destruct (split text); [done|]. cbn [length]. lia. }
    destruct (window_count_bounds n s) as [Hup Hlo]; [lia|unfold s; lia|].
    destruct Hlo as [Hlo _]; [done|]. lia.
Qed.

(** X2 on a text of seven words, windows of three words, one repeated. *)
Lemma windowed_chunk_count_witness :
  ∃ cs, BuildFaissIndex.chunk_text "a b c d e f g" 3 1 = Ok cs ∧
    (split "a b c d e f g" = [] → cs = []) ∧
    (split "a b c d e f g" ≠ [] →
       (len cs - 1) * (3 - 1) < len (split "a b c d e f g")
         ≤ len cs * (3 - 1)).
Proof.
  apply (windowed_chunk_count "a b c d e f g" 3 1); reflexivity.
Defined.

Import EmbdToAoss.

Lemma sentence_step_inv (max_words : Z) (a : acc) (s : string) :
  len (split s) ≤ max_words →
  sentence_inv max_words a → sentence_inv max_words (chunk_step max_words a s).
Proof.
  intros Hs (Hc & Hle & Hch). unfold chunk_step.
  destruct (Z.gtb_spec (count a + len (split s)) max_words) as [Hgt|Hngt];
    unfold sentence_inv; cbn [chunks current count].
  - split; [|split; [done|]].
    + cbn [map concat]. by rewrite List.app_nil_r.
    + apply Forall_app. split; [done|]. repeat constructor.
      rewrite split_join. lia.
  - split; [|split; [lia|done]].
    rewrite map_app, concat_app. cbn [map concat].
    rewrite List.app_nil_r. unfold len in *. rewrite length_app. lia.
Qed.

Lemma sentence_fold_inv (max_words : Z) (sentences : list string) (a : acc) :
  Forall (fun s => len (split s) ≤ max_words) sentences →
  sentence_inv max_words a →
  sentence_inv max_words (fold_left (chunk_step max_words) sentences a).
Proof.
  intros Hs. revert a. induction Hs as [|s rest Hs _ IH]; intros a Ha; [done|].
  cbn [fold_left]. by apply IH, sentence_step_inv.
Qed.

(** X3 (size bound of the sentence chunker). When no sentence of the text
    is longer than [max_words] words, no chunk is: the greedy gathering
    closes a chunk before it would pass the bound. *)
Theorem sentence_chunk_bound (text : string) (max_words : Z) :
  0 ≤ max_words →
  Forall (fun s => len (split s) ≤ max_words) (re_split text) →
  Forall (fun c => len (split c) ≤ max_words) (chunk_text text max_words).
Proof.
  intros Hm Hs. unfold chunk_text.
  pose proof (sentence_fold_inv max_words (re_split text)
                {| chunks := []; current := []; count := 0 |} Hs) as Hinv.
  destruct Hinv as (Hc & Hle & Hch).
  { unfold sentence_inv. cbn. split; [done|]. split; [lia|constructor]. }
  unfold chunk_finish.
  destruct (current (fold_left _ _ _)) eqn:E; [done|].
  apply Forall_app. split; [done|]. repeat constructor.
  rewrite split_join. lia.
Qed.

(** X3 on three short sentences gathered two and one. *)
Lemma sentence_chunk_bound_witness :
  Forall (fun c => len (split c) ≤ 4) (chunk_text "a b. c d.  e f g." 4).
Proof.
  apply (sentence_chunk_bound "a b. c d.  e f g." 4); [lia|].
  vm_compute. repeat constructor; discriminate.
Defined.

Lemma fold_current_nonempty (max_words : Z) (sentences : list string) (a : acc) :
  sentences ≠ [] ∨ current a ≠ [] →
  current (fold_left (chunk_step max_words) sentences a) ≠ [].
Proof.
  revert a. induction sentences as [|s rest IH]; intros a H.
  - by destruct H.
  - cbn [fold_left]. apply IH. right. unfold chunk_step.
    destruct (_ >? _); cbn [current]; [done|]. by destruct (current a).
Qed.

Lemma fold_chunks_length (max_words : Z) (sentences : list string) (a : acc) :
  (length (chunks (fold_left (chunk_step max_words) sentences a))
     ≤ length (chunks a) + length sentences)%nat.
Proof.
  revert a. induction sentences as [|s rest IH]; intros a; [cbn; lia|].
  cbn [fold_left length]. etrans; [apply IH|]. unfold chunk_step.
  destruct (_ >? _); cbn [chunks]; [rewrite length_app; cbn|]; lia.
Qed.

Lemma re_split_go_nonempty (s cur : string) (ap sk : bool) :
  re_split_go cur ap sk s ≠ [].
Proof.
  revert cur ap sk. induction s as [|c s IH]; intros cur ap sk; [done|].
  cbn [re_split_go]. destruct (isspace c); [|apply IH].
  destruct sk; [apply IH|]. destruct ap; [done|apply IH].
Qed.

(** X4 (the sentence chunker always answers). For every text, the empty one
    included, the sentence chunker returns at least one chunk, and at most
    one chunk more than the text has sentences. *)
Theorem sentence_chunk_count (text : string) (max_words : Z) :
  (1 ≤ length (chunk_text text max_words) ≤ length (re_split text) + 1)%nat.
Proof.
  unfold chunk_text, chunk_finish.
  set (a0 := {| chunks := []; current := []; count := 0 |}).
  pose proof (fold_current_nonempty max_words (re_split text) a0
                (or_introl (re_split_go_nonempty text "" false false))) as Hne.
  pose proof (fold_chunks_length max_words (re_split text) a0) as Hlen.
  destruct (current (fold_left _ _ _)) eqn:E; [done|].
  rewrite length_app. cbn [length] in *. cbn in Hlen. lia.
Qed.

End ChunkerFacts.

(** ** Reversal of strings, for suffix tests and [strip] *)

Section ReverseFacts.

Lemma rev_app_spec (s acc : string) :
  String.rev_app s acc = String.rev s +:+ acc.
Proof.
  revert acc. induction s as [|c s IH]; intros acc; [done|].
  unfold String.rev. cbn [String.rev_app].
  rewrite (IH (String c acc)), (IH (String c "")). by rewrite sapp_snoc.
Qed.

Lemma rev_cons (c : ascii) (s : string) :
  String.rev (String c s) = String.rev s +:+ String c "".
Proof. unfold String.rev at 1. cbn [String.rev_app]. apply rev_app_spec. Qed.

Lemma rev_app_distr (a b : string) :
  String.rev (a +:+ b) = String.rev b +:+ String.rev a.
Proof.
  induction a as [|c a IH].
  - cbn [String.append]. by rewrite sapp_nil_r.
  - cbn [String.append]. by rewrite !rev_cons, IH, sapp_assoc.
Qed.

Lemma rev_snoc (s : string) (c : ascii) :
  String.rev (s +:+ String c "") = String c (String.rev s).
Proof. by rewrite rev_app_distr. Qed.

Lemma rev_involutive (s : string) : String.rev (String.rev s) = s.
Proof.
  induction s as [|c s IH]; [done|]. by rewrite rev_cons, rev_snoc, IH.
Qed.



End ReverseFacts.

Section SentenceFacts.

Import EmbdToAoss.

Lemma ends_with_terminator_snoc (cur : string) (c : ascii) :
  ends_with_terminator (cur +:+ String c "") = is_terminator c.
Proof. unfold ends_with_terminator. by rewrite rev_snoc. Qed.

Lemma re_split_go_terminated (s cur : string) (ap sk : bool) :
  (ap = true → ends_with_terminator cur = true) →
  ∃ pieces last, re_split_go cur ap sk s = pieces ++ [last] ∧
    Forall (fun p => ends_with_terminator p = true) pieces.
Proof.
  revert cur ap sk. induction s as [|c s IH]; intros cur ap sk Hap.
  - exists [], cur. split; [done|constructor].
  - cbn [re_split_go]. destruct (isspace c).
    + destruct sk; [by apply IH|]. destruct ap.
      * destruct (IH "" false true) as (pieces & last & -> & Hp); [done|].
        exists (cur :: pieces), last. split; [done|].
        constructor; [by apply Hap|done].
      * by apply IH.
    + apply IH. intros <-. apply ends_with_terminator_snoc.
Qed.

(** X5 (sentences end where the text says so). Of the pieces the sentence
    splitter cuts a text into, every one but the last ends with [.], [!] or
    [?]: a piece is only closed at whitespace that follows a terminator. *)
Theorem sentences_end_with_terminator (text : string)
    (pieces : list string) (last : string) :
  re_split text = pieces ++ [last] →
  Forall (fun p => ends_with_terminator p = true) pieces.
Proof.
  intros E. unfold re_split in E.
  destruct (re_split_go_terminated text "" false false) as (ps & l & E' & Hp);
    [done|].
  rewrite E' in E. by apply app_inj_tail in E as [<- _].
Qed.

(** X5 on two sentences and an unfinished third. *)
Lemma sentences_end_with_terminator_witness :
  Forall (fun p => ends_with_terminator p = true) ["Who won?"; "Nobody did!"].
Proof.
  apply (sentences_end_with_terminator "Who won?  Nobody did! And then"
           ["Who won?"; "Nobody did!"] "And then").
  vm_compute. reflexivity.
Defined.

End SentenceFacts.

(** ** Further properties of the two ingest scripts *)

Section AossTraceFacts.

Import EmbdToAoss.

Context {vector : Type}.
Variable invoke_embedding : string → result vector.
Variable requests_post : string → vector → string → result Z.
Variable get_object_text : string → result string.

Ltac event_cases H :=
  repeat (apply elem_of_cons in H as [H|H];
          [try discriminate H; try (injection H as -> -> ->);
           try (injection H as ->)|]);
  try (by apply elem_of_nil in H).

(** What one turn of the chunk loop adds to the log. *)
Lemma aoss_process_chunk_events (key : string) (ic : Z * string)
    (t : list (event vector)) :
  ∃ t', process_chunk invoke_embedding requests_post key ic t = (Ok tt, t ++ t') ∧
    (long_enough ic.2 = true → Embedded ic.2 ∈ t') ∧
    (∀ c, Embedded c ∈ t' → c = ic.2 ∧ long_enough c = true) ∧
    (∀ c v s, Posted c v s ∈ t' →
       c = ic.2 ∧ s = key ∧ invoke_embedding c = Ok v).
Proof.
  destruct ic as [i chunk]. unfold process_chunk. cbn [snd].
  destruct (len _ <? 20) eqn:Hshort.
  - exists [PrintSkipShort i]. split; [done|].
    split; [unfold long_enough; by rewrite Hshort|].
    split; [intros c H|intros c v s H]; event_cases H.
  - assert (Hlong : long_enough chunk = true)
      by (unfold long_enough; by rewrite Hshort).
    unfold try_except, embed_text, index_chunk, log, modify, mbind, M_bind,
      bind, lift.
    destruct (invoke_embedding chunk) as [v|e] eqn:Hv.
    + destruct (requests_post chunk v key) as [status|e].
      * destruct ((status =? 200) || (status =? 201));
          eexists; (split; [by rewrite <- !List.app_assoc|]);
          (split; [intros _; left|]);
          (split; [intros c H|intros c v' s H]); event_cases H; done.
      * eexists. split; [by rewrite <- !List.app_assoc|].
        split; [intros _; left|].
        split; [intros c H|intros c v' s H]; event_cases H; done.
    + eexists. split; [by rewrite <- !List.app_assoc|].
      split; [intros _; left|].
      split; [intros c H|intros c v' s H]; event_cases H; done.
Qed.

Lemma aoss_chunk_loop_events (key : string) (ics : list (Z * string))
    (t : list (event vector)) :
  ∃ t', for_each ics (process_chunk invoke_embedding requests_post key) t
          = (Ok tt, t ++ t') ∧
    (∀ ic, ic ∈ ics → long_enough ic.2 = true → Embedded ic.2 ∈ t') ∧
    (∀ c, Embedded c ∈ t' → long_enough c = true ∧ ∃ i, (i, c) ∈ ics) ∧
    (∀ c v s, Posted c v s ∈ t' →
       s = key ∧ invoke_embedding c = Ok v ∧ ∃ i, (i, c) ∈ ics).
Proof.
  revert t. induction ics as [|ic ics IH]; intros t.
  - exists []. split; [by rewrite List.app_nil_r|].
    split; [by intros ? ?%elem_of_nil|].
    split; [by intros ? ?%elem_of_nil|by intros ? ? ? ?%elem_of_nil].
  - cbn [for_each]. unfold mbind, M_bind, bind.
    destruct (aoss_process_chunk_events key ic t) as (t1 & -> & L1 & E1 & P1).
    destruct (IH (t ++ t1)) as (t2 & -> & L2 & E2 & P2).
    exists (t1 ++ t2). split; [by rewrite List.app_assoc|]. split; [|split].
    + intros ic' [->|Hin]%elem_of_cons Hlong; apply elem_of_app; auto.
    + intros c [H|H]%elem_of_app.
      * destruct (E1 c H) as [-> ?]. split; [done|].
        exists ic.1. destruct ic. left.
      * destruct (E2 c H) as [? [i Hi]]. split; [done|]. exists i. by right.
    + intros c v s [H|H]%elem_of_app.
      * destruct (P1 c v s H) as (-> & -> & ?). split; [done|]. split; [done|].
        exists ic.1. destruct ic. left.
      * destruct (P2 c v s H) as (? & ? & i & Hi). split; [done|].
        split; [done|]. exists i. by right.
Qed.

Lemma elem_of_enumerate {A} (xs : list A) (i : Z) (x : A) :
  (i, x) ∈ enumerate xs → x ∈ xs.
Proof.
  unfold enumerate. intros (j & y & [= -> ->] & Hj)%elem_of_lookup_imap.
  by eapply list_elem_of_lookup_2.
Qed.

Lemma enumerate_elem_of {A} (xs : list A) (x : A) :
  x ∈ xs → ∃ i, (i, x) ∈ enumerate xs.
Proof.
  intros [j Hj]%list_elem_of_lookup. exists (Z.of_nat j).
  unfold enumerate. by apply (elem_of_lookup_imap_2 (fun i x => (Z.of_nat i, x))).
Qed.

(** X6 (the AOSS ingest of a document goes through every chunk). Whatever
    the embedding call and the index request do, exceptions included, the
    loop of embd_to_aoss.py over the chunks of a document ends normally, and
    every chunk of at least 20 characters has been sent to the embedding
    model. *)
Theorem aoss_process_text_attempts_every_chunk (key text : string)
    (t : list (event vector)) :
  ∃ t', process_text invoke_embedding requests_post key text t
          = (Ok tt, t ++ t') ∧
    ∀ c, c ∈ chunk_text text DEFAULT_MAX_WORDS → long_enough c = true →
         Embedded c ∈ t'.
Proof.
  unfold process_text.
  destruct (aoss_chunk_loop_events key
              (enumerate (chunk_text text DEFAULT_MAX_WORDS)) t)
    as (t' & E & L & _).
  exists t'. split; [done|]. intros c [i Hi]%enumerate_elem_of Hlong.
  by apply (L (i, c)).
Qed.

(** X7 (what the AOSS ingest never sends). In the log of a document's
    ingest, only chunks of the document of at least 20 characters are
    embedded, and a chunk is posted to the index only together with the
    embedding the model returned for it and with the document's key as its
    source: nothing is indexed after a failed embedding. *)
Theorem aoss_process_text_posts_only_embedded (key text : string)
    (t t' : list (event vector)) :
  process_text invoke_embedding requests_post key text t = (Ok tt, t ++ t') →
  (∀ c, Embedded c ∈ t' →
     c ∈ chunk_text text DEFAULT_MAX_WORDS ∧ long_enough c = true) ∧
  (∀ c v s, Posted c v s ∈ t' →
     c ∈ chunk_text text DEFAULT_MAX_WORDS ∧ s = key ∧
     invoke_embedding c = Ok v).
Proof.
  unfold process_text. intros Hrun.
  destruct (aoss_chunk_loop_events key
              (enumerate (chunk_text text DEFAULT_MAX_WORDS)) t)
    as (t'' & E & _ & HE & HP).
  rewrite Hrun in E. injection E as E%app_inv_head. subst t''. split.
  - intros c Hc. destruct (HE c Hc) as [? [i Hi]].
    split; [by apply elem_of_enumerate in Hi|done].
  - intros c v s Hc. destruct (HP c v s Hc) as (? & ? & i & Hi).
    split; [by apply elem_of_enumerate in Hi|done].
Qed.

(** The keys of a listing that are taken for text files. *)
Lemma aoss_process_key_events (key : string) (t : list (event vector)) :
  (endswith key ".txt" = true → is_ok (get_object_text key) = true) →
  ∃ t', process_key invoke_embedding requests_post get_object_text key t
          = (Ok tt, t ++ t') ∧
    ∀ c v s, Posted c v s ∈ t' → s = key ∧ endswith key ".txt" = true.
Proof.
  intros Hget. unfold process_key. destruct (endswith key ".txt") eqn:Htxt.
  - cbn [negb]. unfold mbind, M_bind, bind, lift.
    destruct (get_object_text key) as [text|e]; [|by specialize (Hget eq_refl)].
    unfold process_text.
    destruct (aoss_chunk_loop_events key
                (enumerate (chunk_text text DEFAULT_MAX_WORDS)) t)
      as (t' & E & _ & _ & HP).
    exists t'. split; [done|]. intros c v s H.
    by destruct (HP c v s H) as (-> & _).
  - exists []. split; [by rewrite List.app_nil_r|]. by intros ? ? ? ?%elem_of_nil.
Qed.

Lemma aoss_page_events (page : list string) (t : list (event vector)) :
  (∀ key, key ∈ page → endswith key ".txt" = true →
          is_ok (get_object_text key) = true) →
  ∃ t', for_each page
          (process_key invoke_embedding requests_post get_object_text) t
          = (Ok tt, t ++ t') ∧
    ∀ c v s, Posted c v s ∈ t' → s ∈ page ∧ endswith s ".txt" = true.
Proof.
  revert t. induction page as [|key page IH]; intros t Hget.
  - exists []. split; [by rewrite List.app_nil_r|]. by intros ? ? ? ?%elem_of_nil.
  - cbn [for_each]. unfold mbind, M_bind, bind.
    destruct (aoss_process_key_events key t) as (t1 & -> & P1).
    { intros. apply Hget; [left|done]. }
    destruct (IH (t ++ t1)) as (t2 & -> & P2).
    { intros k Hk. apply Hget. by right. }
    exists (t1 ++ t2). split; [by rewrite List.app_assoc|].
    intros c v s [H|H]%elem_of_app.
    + destruct (P1 c v s H) as [-> ?]. split; [left|done].
    + destruct (P2 c v s H) as [? ?]. split; [by right|done].
Qed.

(** X8 (the AOSS ingest over a listing). When every listed key ending in
    [.txt] can be downloaded, [process_files] ends normally whatever the
    embedding and index calls do, and whatever it posts to the index carries
    as source one of the listed keys ending in [.txt]: other objects are
    passed over. *)
Theorem aoss_process_files_completes (pages : list (list string))
    (t : list (event vector)) :
  (∀ key, key ∈ concat pages → endswith key ".txt" = true →
          is_ok (get_object_text key) = true) →
  ∃ t', process_files invoke_embedding requests_post get_object_text pages t
          = (Ok tt, t ++ t') ∧
    ∀ c v s, Posted c v s ∈ t' →
      s ∈ concat pages ∧ endswith s ".txt" = true.
Proof.
  unfold process_files. revert t.
  induction pages as [|page pages IH]; intros t Hget.
  - exists []. split; [by rewrite List.app_nil_r|]. by intros ? ? ? ?%elem_of_nil.
  - cbn [for_each concat]. unfold mbind, M_bind, bind.
    destruct (aoss_page_events page t) as (t1 & -> & P1).
    { intros k Hk. apply Hget. cbn [concat]. apply elem_of_app. by left. }
    destruct (IH (t ++ t1)) as (t2 & -> & P2).
    { intros k Hk. apply Hget. cbn [concat]. apply elem_of_app. by right. }
    exists (t1 ++ t2). split; [by rewrite List.app_assoc|].
    intros c v s [H|H]%elem_of_app.
    + destruct (P1 c v s H). split; [apply elem_of_app; by left|done].
    + destruct (P2 c v s H). split; [apply elem_of_app; by right|done].
Qed.

End AossTraceFacts.

(** X7 on a document of two sentences. *)
Lemma aoss_process_text_posts_only_embedded_witness :
  let text := "This is the first sentence of the text. Here comes the second one." in
  let t' := (EmbdToAoss.process_text aoss_embed_ok aoss_post_created
               "doc.txt" text []).2 in
  (∀ c, EmbdToAoss.Embedded c ∈ t' →
     c ∈ EmbdToAoss.chunk_text text EmbdToAoss.DEFAULT_MAX_WORDS ∧
     long_enough c = true) ∧
  (∀ c v s, EmbdToAoss.Posted c v s ∈ t' →
     c ∈ EmbdToAoss.chunk_text text EmbdToAoss.DEFAULT_MAX_WORDS ∧
     s = "doc.txt" ∧ aoss_embed_ok c = Ok v).
Proof.
  intros text t'.
  apply (aoss_process_text_posts_only_embedded aoss_embed_ok aoss_post_created
           "doc.txt" text [] t').
  vm_compute. reflexivity.
Defined.

(** X8 on a listing with one text object and one image. *)
Lemma aoss_process_files_completes_witness :
  ∃ t', EmbdToAoss.process_files aoss_embed_ok aoss_post_created aoss_get_text
          [["evidence/a.txt"; "evidence/logo.png"]] []
          = (Ok tt, [] ++ t') ∧
    ∀ c v s, EmbdToAoss.Posted c v s ∈ t' →
      s ∈ concat [["evidence/a.txt"; "evidence/logo.png"]] ∧
      endswith s ".txt" = true.
Proof.
  apply (aoss_process_files_completes aoss_embed_ok aoss_post_created
           aoss_get_text [["evidence/a.txt"; "evidence/logo.png"]] []).
  intros key _ _. reflexivity.
Defined.

Section FaissIngestFacts.

Import BuildFaissIndex.

Context {float32 : Type}.
Variable get_s3_text : string → string → result string.
Variable get_titan_embedding : string → result (list float32).

Lemma extends_refl (st : store float32) : extends st st.
Proof. by repeat split. Qed.

Lemma extends_trans (st1 st2 st3 : store float32) :
  extends st1 st2 → extends st2 st3 → extends st1 st3.
Proof.
  intros (Hd & Hx & Hm) (Hd' & Hx' & Hm'). repeat split.
  - congruence.
  - by etrans.
  - by etrans.
Qed.

Lemma process_chunk_extends (key chunk : string) (st : store float32) :
  extends st (process_chunk get_titan_embedding key chunk st).2.
Proof.
  unfold process_chunk, mbind, M_bind, bind, lift, add_vector.
  destruct (get_titan_embedding chunk) as [v|e]; [|apply extends_refl].
  unfold index_add. destruct (Nat.eqb _ _); [|apply extends_refl].
  repeat split; cbn; by apply prefix_app_r.
Qed.

Lemma process_file_extends (bucket key : string) (st : store float32) :
  extends st (process_file get_s3_text get_titan_embedding bucket key st).2.
Proof.
  unfold process_file, mbind, M_bind, bind, lift.
  destruct (get_s3_text bucket key) as [text|e]; [|apply extends_refl].
  destruct (chunk_text text _ _) as [cs|e]; [|apply extends_refl].
  apply (for_each_preserves (extends st)); [|apply extends_refl].
  intros c s Hs. eapply extends_trans; [done|apply process_chunk_extends].
Qed.

(** X9 (the stores only grow, in step). However the run over the files
    ends, with an exception or without, the index keeps its dimension, the
    vectors and records it had stay at their slots with new ones only added
    behind them, and stores that were paired are still paired: a failure in
    the middle of a file leaves no vector without its record. *)
Theorem ingest_extends_in_step (bucket : string) (files : list string)
    (st : store float32) :
  let st' := (process_all get_s3_text get_titan_embedding bucket files st).2 in
  extends st st' ∧
  (paired get_titan_embedding st → paired get_titan_embedding st').
Proof.
  intros st'. split.
  - apply (for_each_preserves (extends st)); [|apply extends_refl].
    intros key s Hs. eapply extends_trans; [done|apply process_file_extends].
  - apply process_all_paired.
Qed.

Lemma for_each_chunks_ingested (vec : string → list float32) (key : string)
    (cs : list string) (st : store float32) :
  (∀ c, c ∈ cs → get_titan_embedding c = Ok (vec c)
                 ∧ length (vec c) = d (index st)) →
  for_each cs (process_chunk get_titan_embedding key) st
    = (Ok tt, ingested vec key cs st).
Proof.
  revert st. induction cs as [|c cs IH]; intros st Hvec.
  - cbn [for_each]. unfold ret, ingested. cbn [map].
    rewrite !List.app_nil_r. by destruct st as [[? ?] ?].
  - cbn [for_each]. unfold mbind, M_bind, bind at 1.
    destruct (Hvec c ltac:(left)) as [Hc Hlen].
    unfold process_chunk at 1, mbind, M_bind, bind, lift, add_vector, index_add.
    rewrite Hc, Hlen, Nat.eqb_refl. cbn [append_metadata modify].
    unfold append_metadata, modify. cbn [index metadata_list].
    rewrite IH.
    + unfold ingested. cbn [index metadata_list d xb map].
      by rewrite <- !List.app_assoc.
    + intros c' Hc'. cbn [index d]. apply Hvec. by right.
Qed.

(** X10 (a file that goes through). When the object is downloaded and
    every window of its text is embedded with a vector of the index's
    dimension, [process_file] ends normally and has appended, in the order
    of the windows, one vector to the index and one record to the metadata
    list for each, every record carrying the window's text and the object's
    key. *)
Theorem process_file_appends_chunks (vec : string → list float32)
    (bucket key text : string) (cs : list string) (st : store float32) :
  get_s3_text bucket key = Ok text →
  chunk_text text DEFAULT_MAX_WORDS DEFAULT_OVERLAP = Ok cs →
  (∀ c, c ∈ cs → get_titan_embedding c = Ok (vec c)
                 ∧ length (vec c) = d (index st)) →
  process_file get_s3_text get_titan_embedding bucket key st
    = (Ok tt, ingested vec key cs st).
Proof.
  intros Hget Hcs Hvec. unfold process_file, mbind, M_bind, bind, lift.
  rewrite Hget, Hcs. by apply for_each_chunks_ingested.
Qed.

End FaissIngestFacts.

(** X10 on a short document, from the empty stores. *)
Lemma process_file_appends_chunks_witness :
  BuildFaissIndex.process_file s3_small embed_zero "bucket" "a.txt"
      BuildFaissIndex.empty_store
    = (Ok tt, ingested (fun _ => replicate BuildFaissIndex.embedding_dim 0)
                "a.txt" ["alpha beta gamma"] BuildFaissIndex.empty_store).
Proof.
  apply (process_file_appends_chunks s3_small embed_zero
           (fun _ => replicate BuildFaissIndex.embedding_dim 0)
           "bucket" "a.txt" "alpha beta gamma").
  - reflexivity.
  - vm_compute. reflexivity.
  - intros c _. split; [reflexivity|]. apply length_replicate.
Defined.

Section ListingFacts.

Import BuildFaissIndex.

(** The number of files [list_text_files] stops at: a [max_files] below one
    still lets the first text file through. *)
Lemma scan_page_spec (max_files : Z) (keys files : list string) :
  (length files < Z.to_nat (Z.max 1 max_files))%nat →
  scan_page max_files keys files =
  if (Z.to_nat (Z.max 1 max_files)
        <=? length (files ++ List.filter is_txt keys))%nat
  then (take (Z.to_nat (Z.max 1 max_files))
             (files ++ List.filter is_txt keys), true)
  else (files ++ List.filter is_txt keys, false).
Proof.
  set (N := Z.to_nat (Z.max 1 max_files)).
  revert files. induction keys as [|key keys IH]; intros files Hlen.
  - cbn [scan_page List.filter]. rewrite List.app_nil_r.
    by destruct (Nat.leb_spec N (length files)); [lia|].
  - cbn [scan_page List.filter]. change (is_txt key) with (endswith key ".txt").
    destruct (endswith key ".txt") eqn:Htxt; [|by apply IH].
    assert (Hl : length (files ++ [key]) = S (length files))
      by (rewrite length_app; cbn; lia).
    change (key :: List.filter is_txt keys)
      with ([key] ++ List.filter is_txt keys).
    rewrite (List.app_assoc files [key]).
    destruct (Z.geb_spec (len (files ++ [key])) max_files) as [Hge|Hlt].
    + assert (HN : N = length (files ++ [key])).
      { unfold len in Hge. unfold N in *. lia. }
      destruct (Nat.leb_spec N (length ((files ++ [key]) ++ List.filter is_txt keys)))
        as [_|Hbad]; [|rewrite length_app in Hbad; lia].
      by rewrite HN, take_app_length.
    + apply IH. unfold len in Hlt. unfold N. lia.
Qed.

Lemma scan_pages_spec (max_files : Z) (pages : list (list string))
    (files : list string) :
  (length files < Z.to_nat (Z.max 1 max_files))%nat →
  scan_pages max_files pages files =
  take (Z.to_nat (Z.max 1 max_files))
       (files ++ List.filter is_txt (concat pages)).
Proof.
  set (N := Z.to_nat (Z.max 1 max_files)).
  revert files. induction pages as [|page pages IH]; intros files Hlen.
  - cbn [scan_pages concat List.filter]. rewrite List.app_nil_r.
    by rewrite take_ge by lia.
  - cbn [scan_pages concat]. rewrite scan_page_spec by done. fold N.
    rewrite List.filter_app, List.app_assoc.
    destruct (Nat.leb_spec N (length (files ++ List.filter is_txt page)))
      as [Hle|Hgt].
    + cbn beta iota.
      by rewrite (take_app_le (files ++ List.filter is_txt page)) by lia.
    + cbn beta iota. by rewrite IH by lia.
Qed.

(** X11 (the listing of text files). [list_text_files] returns, in the
    order of the listing, the first [max_files] keys that end in [.txt], or
    all of them when there are fewer; for a [max_files] of zero or less it
    still returns the first such key, since the bound is only looked at
    after a key has been taken. *)
Theorem list_text_files_spec (pages : list (list string)) (max_files : Z) :
  list_text_files pages max_files =
  take (Z.to_nat (Z.max 1 max_files)) (List.filter is_txt (concat pages)).
Proof.
  unfold list_text_files. rewrite scan_pages_spec; [done|]. cbn [length]. lia.
Qed.

End ListingFacts.

(** ** Further properties of retrieval *)

Section RankingFacts.

Import BuildFaissIndex FaissQuery.

Context {float32 dist : Type}.
Variable fvec_L2sqr : list float32 → list float32 → dist.
Variable dist_leb : dist → dist → bool.











End RankingFacts.



(** ** Further properties of generation and of the front ends *)

Section GenerationFacts.

Ltac family_cases m :=
  destruct (startswith m "anthropic.claude") eqn:Hclaude;
  destruct (startswith m "amazon.titan-text") eqn:Htitan;
  destruct (startswith m "mistral.") eqn:Hmistral;
  destruct (startswith m "mistral.mistral-7b") eqn:Hmistral7;
  destruct (startswith m "cohere.command-r") eqn:Hcohere.

(** X14 (a response without the answer field). For a response object that
    has none of the fields [completion], [results], [outputs] and
    [generations], the command-line tool of the FAISS variant answers
    ["[No output]"] for each family it supports, where the Lambda function
    raises [KeyError] for each family it supports. *)
Theorem response_without_answer_field (fields : list (string * json))
    (prompt model_id : string) :
  Json.assoc fields "completion" = None →
  Json.assoc fields "results" = None →
  Json.assoc fields "outputs" = None →
  Json.assoc fields "generations" = None →
  (is_ok (FaissQuery.request_body prompt model_id) = true →
   FaissQuery.response_text (JDict fields) model_id = Ok (JStr "[No output]")) ∧
  (is_ok (LambdaFunction.request_body prompt model_id) = true →
   ∃ key, LambdaFunction.response_text (JDict fields) model_id
            = Raise (KeyError key)).
Proof.
  intros Hc Hr Ho Hg.
  unfold FaissQuery.request_body, FaissQuery.response_text,
    LambdaFunction.request_body, LambdaFunction.response_text,
    LambdaFunction.first_field, Json.get, Json.item.
  rewrite Hc, Hr, Ho, Hg. cbn [from_option Json.first id].
  family_cases model_id; cbn [is_ok]; (split; [done || by intros|]);
    try done; intros _; eauto.
Qed.

(** X14 on an empty response object and a Titan Text model. *)
Lemma response_without_answer_field_witness :
  (is_ok (FaissQuery.request_body "Who?" "amazon.titan-text-lite-v1") = true →
   FaissQuery.response_text (JDict []) "amazon.titan-text-lite-v1"
     = Ok (JStr "[No output]")) ∧
  (is_ok (LambdaFunction.request_body "Who?" "amazon.titan-text-lite-v1") = true →
   ∃ key, LambdaFunction.response_text (JDict []) "amazon.titan-text-lite-v1"
            = Raise (KeyError key)).
Proof.
  apply (response_without_answer_field [] "Who?" "amazon.titan-text-lite-v1");
    reflexivity.
Defined.

Lemma startswith_first_char (m p q : string) (a b : ascii) :
  a ≠ b → startswith m (String a p) = true → startswith m (String b q) = false.
Proof.
  unfold startswith. intros Hab. destruct m as [|c m]; [done|].
  cbn [String.prefix]. destruct (ascii_dec a c) as [->|?]; [|done].
  intros _. by destruct (ascii_dec b c) as [->|?].
Qed.

(** X15 (which models each front end accepts). Every model identifier the
    Lambda function builds a request for, other than a Cohere Command one,
    is also accepted by the FAISS command-line tool; a Cohere Command
    identifier is accepted by the Lambda function and rejected by the tool;
    a Mistral identifier other than a [mistral.mistral-7b] one is accepted by
    the tool and rejected by the Lambda function. *)
Theorem accepted_models (prompt model_id : string) :
  (is_ok (LambdaFunction.request_body prompt model_id) = true →
   startswith model_id "cohere.command-r" = false →
   is_ok (FaissQuery.request_body prompt model_id) = true) ∧
  (startswith model_id "cohere.command-r" = true →
   is_ok (LambdaFunction.request_body prompt model_id) = true ∧
   is_ok (FaissQuery.request_body prompt model_id) = false) ∧
  (startswith model_id "mistral." = true →
   startswith model_id "mistral.mistral-7b" = false →
   is_ok (FaissQuery.request_body prompt model_id) = true ∧
   is_ok (LambdaFunction.request_body prompt model_id) = false).
Proof.
  unfold LambdaFunction.request_body, FaissQuery.request_body.
  split; [|split].
  - intros Hok Hco. rewrite Hco in Hok.
    destruct (startswith model_id "anthropic.claude"); [done|].
    destruct (startswith model_id "amazon.titan-text"); [done|].
    destruct (startswith model_id "mistral.mistral-7b") eqn:Hm; [|done].
    destruct (startswith model_id "mistral.") eqn:Hm'; [done|].
    assert (startswith model_id "mistral.mistral-7b" = false)
      by exact (startswith_shorter model_id "mistral." "mistral-7b" Hm').
    congruence.
  - intros Hco.
    rewrite (startswith_first_char model_id _ "nthropic.claude" "c" "a"
               ltac:(done) Hco).
    rewrite (startswith_first_char model_id _ "mazon.titan-text" "c" "a"
               ltac:(done) Hco).
    rewrite (startswith_first_char model_id _ "istral.mistral-7b" "c" "m"
               ltac:(done) Hco).
    rewrite (startswith_first_char model_id _ "istral." "c" "m"
               ltac:(done) Hco).
    by rewrite Hco.
  - intros Hm Hm7.
    rewrite (startswith_first_char model_id _ "nthropic.claude" "m" "a"
               ltac:(done) Hm).
    rewrite (startswith_first_char model_id _ "mazon.titan-text" "m" "a"
               ltac:(done) Hm).
    rewrite (startswith_first_char model_id _ "ohere.command-r" "m" "c"
               ltac:(done) Hm).
    by rewrite Hm, Hm7.
Qed.

(** X15 on a Mixtral identifier. *)
Lemma accepted_models_witness :
  is_ok (FaissQuery.request_body "Who?" "mistral.mixtral-8x7b-instruct-v0:1")
    = true ∧
  is_ok (LambdaFunction.request_body "Who?" "mistral.mixtral-8x7b-instruct-v0:1")
    = false.
Proof.
  apply (proj2 (proj2 (accepted_models "Who?"
                         "mistral.mixtral-8x7b-instruct-v0:1"))); reflexivity.
Defined.

End GenerationFacts.

Section FrontEndFacts.

Import LambdaFunction.

Variable bedrock_invoke_model : string → json → result json.
Variable requests_post : string → json → result (Z * json).
Variables (AOSS_ENDPOINT INDEX_NAME : string).

Lemma generate_answer_returns (prompt model_id : string) (answer : json)
    (t1 t2 : list call) :
  generate_answer bedrock_invoke_model prompt model_id t1 = (Ok answer, t2) →
  ∃ body, request_body prompt model_id = Ok body ∧
          t2 = t1 ++ [InvokeModel model_id body].
Proof.
  unfold generate_answer, invoke_model, mbind, M_bind, bind, lift, modify.
  destruct (request_body prompt model_id) as [body|e]; [|done].
  destruct (bedrock_invoke_model model_id body) as [res|e]; [|done].
  intros [= _ <-]. eauto.
Qed.

(** X16 (what a response of the handler stands for). Whenever the Lambda
    handler returns a response, it is either the 400 response, with no call
    made, or a 200 response whose body holds a stripped answer string, and
    then the last call made is the one request to the generation model, for
    the model identifier asked for, with the body of its family. *)
Theorem handler_response_sound (ev : event) (t t' : list call) (r : response) :
  lambda_handler bedrock_invoke_model requests_post
    AOSS_ENDPOINT INDEX_NAME ev t = (Ok r, t') →
  (r = missing_prompt_response ∧ t' = t) ∨
  (∃ params prompt body answer t1,
     queryStringParameters ev = Params params ∧
     request_body prompt (param_model_id params) = Ok body ∧
     t' = t1 ++ [InvokeModel (param_model_id params) body] ∧
     r = answer_response (strip answer)).
Proof.
  unfold lambda_handler.
  destruct (queryStringParameters ev) as [| |params] eqn:Hev.
  - rewrite lookup_empty. cbn. intros [= <- <-]. by left.
  - done.
  - destruct (truthy (default "" (params !! "prompt"))) eqn:Hq; cbn [negb].
    2:{ intros [= <- <-]. by left. }
    unfold mbind, M_bind, bind.
    destruct (full_prompt _ _ _ _ _ _ t) as [[prompt|e] t1]; [|done].
    destruct (generate_answer _ _ _ t1) as [[answer|e] t2] eqn:Hgen; [|done].
    destruct (generate_answer_returns _ _ _ _ _ Hgen) as (body & Hbody & ->).
    unfold lift, strip_answer. destruct answer; try done.
    intros [= <- <-]. right. exists params, prompt, body, s, t1. by repeat split.
Qed.

(** X17 (a failed search stops the request). With retrieval on, when the
    embedding of the question is returned and the search endpoint answers
    with a status other than 200, the handler raises; the calls made are the
    embedding request for the question as it was sent and the search request
    for 5 neighbours of that embedding, and no request to the generation
    model. *)
Theorem handler_search_failure (ev : event) (params : gmap string string)
    (question : string) (res embedding body : json) (status : Z)
    (t : list call) :
  queryStringParameters ev = Params params →
  params !! "prompt" = Some question → question ≠ "" →
  param_use_rag params = true →
  bedrock_invoke_model EMBED_MODEL_ID (JDict [("inputText", JStr question)])
    = Ok res →
  Json.item res "embedding" = Ok embedding →
  requests_post (AOSS_ENDPOINT +:+ "/" +:+ INDEX_NAME +:+ "/_search")
                (AossQuery.knn_query embedding 5) = Ok (status, body) →
  status ≠ 200 →
  lambda_handler bedrock_invoke_model requests_post
    AOSS_ENDPOINT INDEX_NAME ev t
  = (Raise (Exception "AOSS search failed"),
     t ++ [InvokeModel EMBED_MODEL_ID (JDict [("inputText", JStr question)]);
           HttpPost (AOSS_ENDPOINT +:+ "/" +:+ INDEX_NAME +:+ "/_search")
                    (AossQuery.knn_query embedding 5)]).
Proof.
  intros Hev Hq Hne Hrag Hemb Hitem Hpost Hstatus.
  rewrite (handler_with_prompt _ _ _ _ ev params question t Hev Hq Hne).
  rewrite Hrag.
  unfold full_prompt, embed_text, knn_search, invoke_model, http_post,
    mbind, M_bind, bind, lift, modify, raise.
  rewrite Hemb, Hitem, Hpost. cbn [fst].
  destruct (Z.eqb_spec status 200) as [?|_]; [done|]. cbn [negb].
  by rewrite <- List.app_assoc.
Qed.

End FrontEndFacts.

(** X16 on a question answered by a Titan Text model. *)
Lemma handler_response_sound_witness :
  (answer_response (strip " Paris ") = missing_prompt_response ∧
   [InvokeModel "amazon.titan-text-lite-v1"
      (JDict [("inputText", JStr "Capital of France?");
              ("textGenerationConfig",
               JDict [("maxTokenCount", JInt 512);
                      ("temperature", JFloat 5 (-1));
                      ("topP", JFloat 9 (-1))])])] = []) ∨
  (∃ params prompt body answer t1,
     LambdaFunction.queryStringParameters event_question
       = LambdaFunction.Params params ∧
     LambdaFunction.request_body prompt (param_model_id params) = Ok body ∧
     [InvokeModel "amazon.titan-text-lite-v1"
        (JDict [("inputText", JStr "Capital of France?");
                ("textGenerationConfig",
                 JDict [("maxTokenCount", JInt 512);
                        ("temperature", JFloat 5 (-1));
                        ("topP", JFloat 9 (-1))])])]
       = t1 ++ [InvokeModel (param_model_id params) body] ∧
     answer_response (strip " Paris ") = answer_response (strip answer)).
Proof.
  apply (handler_response_sound bedrock_titan search_nothing
           "https://aoss.example" "rag-index" event_question []).
  vm_compute. reflexivity.
Defined.

(** X17 on a search endpoint that answers 503. *)
Lemma handler_search_failure_witness :
  LambdaFunction.lambda_handler bedrock_embedding search_unavailable
    "https://aoss.example" "rag-index" event_rag []
  = (Raise (Exception "AOSS search failed"),
     [] ++ [InvokeModel LambdaFunction.EMBED_MODEL_ID
              (JDict [("inputText", JStr "Capital of France?")]);
            HttpPost ("https://aoss.example" +:+ "/" +:+ "rag-index" +:+ "/_search")
              (AossQuery.knn_query
                 (JList [JFloat 1 (-1); JFloat 2 (-1)]) 5)]).
Proof.
  apply (handler_search_failure bedrock_embedding search_unavailable
           "https://aoss.example" "rag-index" event_rag
           {[ "prompt" := "Capital of France?"; "enable_rag" := "True" ]}
           "Capital of France?"
           (JDict [("embedding", JList [JFloat 1 (-1); JFloat 2 (-1)])])
           (JList [JFloat 1 (-1); JFloat 2 (-1)])
           (JDict [("message", JStr "Service Unavailable")]) 503 []);
    try reflexivity; discriminate.
Defined.

Section CommandLineFacts.

Context {float32 dist : Type}.
Variable fvec_L2sqr : list float32 → list float32 → dist.
Variable dist_leb : dist → dist → bool.
Variable np_array : json → result (list float32).
Variable bedrock_invoke_model : string → json → result json.
Variable requests_post : string → json → result (Z * json).
Variables (aoss_endpoint index_name embed_model_id gen_model_id : string).
Variable top_k : Z.


(** X19 (a failed generation call ends the FAISS command-line loop). In
    local-faiss-demo/query_rag.py, with [--disable-rag], a supported model
    and a question, an exception of the generation call leaves the turn of
    the loop as it is, after the one request has been made: the loop only
    handles the keyboard interrupt. *)
Theorem faiss_cli_turn_propagates (index : BuildFaissIndex.IndexFlatL2 float32)
    (metadata : list BuildFaissIndex.metadata_record)
    (model_id line : string) (body : json) (e : exn) (t : list call) :
  strip line ≠ "" →
  FaissQuery.request_body (FaissQuery.raw_prompt (strip line)) model_id
    = Ok body →
  bedrock_invoke_model model_id body = Raise e →
  FaissQuery.ask fvec_L2sqr dist_leb bedrock_invoke_model np_array
    index metadata true model_id line t
  = (Raise e, t ++ [InvokeModel model_id body]).
Proof.
  intros Hq Hbody Hfail. unfold FaissQuery.ask.
  rewrite (truthy_nonempty _ Hq). cbn [negb].
  unfold FaissQuery.call_bedrock_model, invoke_model, mbind, M_bind, bind,
    mret, M_ret, ret, lift, modify.
  by rewrite Hbody, Hfail.
Qed.


End CommandLineFacts.

(** X19 on a throttled endpoint. *)
Lemma faiss_cli_turn_propagates_witness :
  FaissQuery.ask sum_sq Z.leb bedrock_throttled no_vector
    three_vectors three_records true "amazon.titan-text-lite-v1" " hi " []
  = (Raise (TransportError "ThrottlingException"),
     [] ++ [InvokeModel "amazon.titan-text-lite-v1"
              (JDict [("inputText", JStr (FaissQuery.raw_prompt "hi"))])]).
Proof.
  apply (faiss_cli_turn_propagates sum_sq Z.leb no_vector bedrock_throttled
           three_vectors three_records "amazon.titan-text-lite-v1" " hi ");
    [discriminate|reflexivity|reflexivity].
Defined.


(** ** create_aoss_index.py: the address of the index *)

Section CreateIndexFacts.

Import CreateAossIndex.

Lemma lstrip_char_spec (c : ascii) (s : string) :
  ∃ n, s = repeat_char c n +:+ lstrip_char c s ∧
       String.prefix (String c "") (lstrip_char c s) = false.
Proof.
  induction s as [|x s (n & Hs & Hp)].
  - by exists 0%nat.
  - cbn [lstrip_char]. destruct (Ascii.eqb_spec x c) as [->|Hne].
    + exists (S n). cbn [repeat_char String.append]. by rewrite <- Hs.
    + exists 0%nat. split; [done|]. cbn [String.prefix].
      by destruct (ascii_dec c x) as [->|?].
Qed.

Lemma rev_repeat_char (c : ascii) (n : nat) :
  String.rev (repeat_char c n) = repeat_char c n.
Proof.
  induction n as [|n IH]; [done|]. cbn [repeat_char].
  rewrite rev_cons, IH. clear IH.
  induction n as [|n IH]; [done|]. cbn [repeat_char String.append].
  by rewrite IH.
Qed.

Lemma rstrip_char_spec (c : ascii) (s : string) :
  ∃ n, s = rstrip_char c s +:+ repeat_char c n ∧
       endswith (rstrip_char c s) (String c "") = false.
Proof.
  unfold rstrip_char, endswith.
  destruct (lstrip_char_spec c (String.rev s)) as (n & Hs & Hp).
  exists n. split.
  - rewrite <- (rev_involutive s) at 1. rewrite Hs at 1.
    by rewrite rev_app_distr, rev_repeat_char.
  - by rewrite rev_involutive.
Qed.

Lemma lstrip_char_repeat (c : ascii) (n : nat) (s : string) :
  lstrip_char c (repeat_char c n +:+ s) = lstrip_char c s.
Proof.
  induction n as [|n IH]; [done|]. cbn [repeat_char String.append lstrip_char].
  by rewrite Ascii.eqb_refl.
Qed.

(** X21 (the address of the index). The address [create_index] sends its
    request to is the endpoint without its trailing slashes, one slash and
    the index name, so an endpoint given with trailing slashes leads to the
    same request as the endpoint without them. *)
Theorem index_url_normalised (requests_put : string → json → result Z)
    (endpoint index_name : string) :
  (∃ base n, endpoint = base +:+ repeat_char "/" n ∧
             endswith base "/" = false ∧
             index_url endpoint index_name = base +:+ "/" +:+ index_name) ∧
  (∀ n t, create_index requests_put (endpoint +:+ repeat_char "/" n) index_name t
          = create_index requests_put endpoint index_name t).
Proof.
  split.
  - destruct (rstrip_char_spec "/" endpoint) as (n & Hs & Hp).
    exists (rstrip_char "/" endpoint), n. by repeat split.
  - intros n t. unfold create_index, index_url, rstrip_char.
    by rewrite rev_app_distr, rev_repeat_char, lstrip_char_repeat.
Qed.

End CreateIndexFacts.

(** ** extract_to_s3.py: what is extracted and uploaded *)

Section ExtractFacts.

Import ExtractToS3.

Variable tar_extract : string → bool.
Variable s3_upload_file : string → result unit.
Variable present : gset string.
Variable listed : list string.

Lemma for_each_preserves_in {S A} (P : S → Prop) (body : A → M S unit)
    (xs : list A) (s : S) :
  (∀ x s, x ∈ xs → P s → P (body x s).2) → P s → P (for_each xs body s).2.
Proof.
  revert s. induction xs as [|x xs IH]; intros s Hbody Hs; [done|].
  cbn [for_each]. unfold mbind, M_bind, bind.
  pose proof (Hbody x s ltac:(left) Hs) as Hx.
  destruct (body x s) as [[[]|e] s']; [|done].
  apply IH; [|done]. intros y s0 Hy. apply Hbody. by right.
Qed.

Lemma upload_keys_snoc (t : list event) (e : event) :
  upload_keys (t ++ [e]) =
  upload_keys t ++ match e with UploadFile k => [k] | _ => [] end.
Proof. unfold upload_keys. rewrite omap_app. by destruct e. Qed.

Lemma elem_of_upload_keys (t : list event) (k : string) :
  k ∈ upload_keys t ↔ UploadFile k ∈ t.
Proof.
  unfold upload_keys. rewrite list_elem_of_omap. split.
  - intros (e & He & Hk). by destruct e; simplify_eq.
  - intros H. by exists (UploadFile k).
Qed.

(** Writing a line other than an upload keeps the invariant. *)
Lemma inv_log (st : state) (e : event) :
  (∀ k, e ≠ UploadFile k) →
  (∀ m, e = RunTar m → (m ∉ present) ∧ m ∈ listed) →
  (extract_inv s3_upload_file present listed) st → (extract_inv s3_upload_file present listed) (log e st).2.
Proof.
  intros Hup Htar (H1 & H2 & H3 & H4 & H5 & H6).
  unfold extract_inv, log, modify. cbn.
  split; [done|]. split; [|split; [|split; [|split; [done|]]]].
  - intros k [Hk|Hk%list_elem_of_singleton]%elem_of_app; [by apply H2|].
    by destruct (Hup k).
  - rewrite upload_keys_snoc. destruct e; rewrite ?List.app_nil_r; try done.
    by destruct (Hup s3_key).
  - intros k. rewrite H4. split.
    + intros [? ?]. split; [apply elem_of_app; by left|done].
    + intros [[Hk|Hk%list_elem_of_singleton]%elem_of_app ?]; [done|].
      by destruct (Hup k).
  - intros m [Hm|Hm%list_elem_of_singleton]%elem_of_app; [by apply H6|].
    by apply Htar.
Qed.

Lemma inv_add_extracted (st : state) (m : string) :
  (extract_inv s3_upload_file present listed) st → (extract_inv s3_upload_file present listed) (add_extracted m st).2.
Proof.
  intros (H1 & H2 & H3 & H4 & H5 & H6).
  unfold extract_inv, add_extracted, modify. cbn.
  split; [by apply union_subseteq_r'|]. split; [|done].
  intros k Hk. destruct (H2 k Hk). split; [|done].
  apply elem_of_union. by right.
Qed.

Lemma inv_add_local (st : state) (m : string) :
  (extract_inv s3_upload_file present listed) st → (extract_inv s3_upload_file present listed) (add_local m st).2.
Proof.
  intros (H1 & H2 & H3 & H4 & H5 & H6).
  unfold extract_inv, add_local, modify. cbn.
  split; [done|]. split; [done|]. split; [done|]. split; [done|].
  split; [by apply union_subseteq_r'|done].
Qed.

Lemma inv_upload (st : state) (k : string) :
  k ∈ extracted_files st → k ∈ listed → UploadFile k ∉ trace st →
  (extract_inv s3_upload_file present listed) st → (extract_inv s3_upload_file present listed) (upload s3_upload_file k st).2.
Proof.
  intros Hke Hkl Hnew (H1 & H2 & H3 & H4 & H5 & H6).
  unfold upload, get_state, mbind, M_bind, bind.
  case_bool_decide as Hup; [done|].
  unfold log, add_uploaded, modify.
  destruct (s3_upload_file k) as [[]|e] eqn:Hs3; unfold extract_inv; cbn.
  - split.
    { intros x [->%elem_of_singleton|Hx]%elem_of_union; [done|by apply H1]. }
    split; [|split; [|split; [|split; [done|]]]].
    + intros k' Hk'. rewrite !elem_of_app, !list_elem_of_singleton in Hk'.
      destruct Hk' as [[Hk'|[= ->]]|?]; [by apply H2|done|done].
    + rewrite !upload_keys_snoc, List.app_nil_r. apply NoDup_app.
      split; [done|]. split; [|apply NoDup_singleton].
      intros x Hx ->%list_elem_of_singleton. by apply elem_of_upload_keys in Hx.
    + intros k'. rewrite elem_of_union, elem_of_singleton, H4.
      rewrite !elem_of_app, !list_elem_of_singleton. split.
      * intros [->|[? ?]]; [by rewrite Hs3; auto|auto].
      * intros [[[?|[= ->]]|?] ?]; [auto|auto|done].
    + intros m Hm. rewrite !elem_of_app, !list_elem_of_singleton in Hm.
      destruct Hm as [[?|?]|?]; [by apply H6|done|done].
  - split; [done|]. split; [|split; [|split; [|split; [done|]]]].
    + intros k' Hk'. rewrite !elem_of_app, !list_elem_of_singleton in Hk'.
      destruct Hk' as [[Hk'|[= ->]]|?]; [by apply H2|done|done].
    + rewrite !upload_keys_snoc, List.app_nil_r. apply NoDup_app.
      split; [done|]. split; [|apply NoDup_singleton].
      intros x Hx ->%list_elem_of_singleton. by apply elem_of_upload_keys in Hx.
    + intros k'. rewrite H4, !elem_of_app, !list_elem_of_singleton. split.
      * intros [? ?]; auto.
      * intros [[[?|[= ->]]|?] Hok]; [auto| |done]. by rewrite Hs3 in Hok.
    + intros m Hm. rewrite !elem_of_app, !list_elem_of_singleton in Hm.
      destruct Hm as [[?|?]|?]; [by apply H6|done|done].
Qed.

Lemma inv_process_doc (doc : page) (st : state) :
  (∀ m, m ∈ member_of doc → m ∈ listed) →
  (extract_inv s3_upload_file present listed) st → (extract_inv s3_upload_file present listed) (process_doc tar_extract s3_upload_file doc st).2.
Proof.
  intros Hl Hst. unfold process_doc, member_of in *.
  destruct (Filename doc) as [filename|]; [|done].
  set (m := "evidence/wikipedia/" +:+ filename) in *.
  assert (Hm : m ∈ listed) by (apply Hl; left).
  unfold get_state, mbind, M_bind, bind at 1.
  case_bool_decide as Hex; [done|].
  assert (Hfresh : UploadFile m ∉ trace st).
  { intros Hin. destruct Hst as (_ & H2 & _). by destruct (H2 m Hin). }
  case_bool_decide as Hloc; cbn [negb].
  - (* the member is under the output directory already *)
    unfold mbind, M_bind, bind.
    pose proof (inv_log st (PrintSkipExtract m) ltac:(done) ltac:(done) Hst) as I1.
    pose proof (inv_add_extracted _ m I1) as I2.
    apply inv_upload;
      [cbn; apply elem_of_union; left; by apply elem_of_singleton|done| |done].
    cbn. intros [?|?%list_elem_of_singleton]%elem_of_app; done.
  - (* tar is run *)
    assert (Hnp : m ∉ present).
    { destruct Hst as (_ & _ & _ & _ & H5 & _). intros Hp. by apply Hloc, H5. }
    unfold mbind, M_bind, bind.
    pose proof (inv_log st (RunTar m) ltac:(done)
                  ltac:(by intros ? [= <-]) Hst) as I1.
    destruct (tar_extract m).
    + pose proof (inv_add_local _ m I1) as I2.
      pose proof (inv_log _ (PrintExtracted m) ltac:(done) ltac:(done) I2) as I3.
      pose proof (inv_add_extracted _ m I3) as I4.
      apply inv_upload;
      [cbn; apply elem_of_union; left; by apply elem_of_singleton|done| |done].
      cbn. rewrite !elem_of_app, !list_elem_of_singleton.
      intros [[?|?]|?]; done.
    + by apply inv_log.
Qed.

Lemma elem_of_flat_map {A B} (f : A → list B) (xs : list A) (x : A) (y : B) :
  x ∈ xs → y ∈ f x → y ∈ flat_map f xs.
Proof.
  intros Hx Hy. apply list_elem_of_In, in_flat_map.
  exists x. by split; apply list_elem_of_In.
Qed.

Lemma inv_process_record (r : record) (st : state) :
  (∀ m, m ∈ flat_map member_of (default [] (EntityPages r)) → m ∈ listed) →
  (extract_inv s3_upload_file present listed) st → (extract_inv s3_upload_file present listed) (process_record tar_extract s3_upload_file r st).2.
Proof.
  intros Hl Hst. unfold process_record.
  apply (for_each_preserves_in (extract_inv s3_upload_file present listed)); [|done].
  intros doc s Hdoc Hs. apply inv_process_doc; [|done].
  intros m Hm. apply Hl. by eapply elem_of_flat_map.
Qed.

Lemma initial_inv : (extract_inv s3_upload_file present listed) (initial_state present).
Proof.
  unfold extract_inv, initial_state. cbn.
  split; [done|]. split; [by intros ? ?%elem_of_nil|].
  split; [constructor|]. split; [|split; [done|by intros ? ?%elem_of_nil]].
  intros k. split; [by intros ?%elem_of_empty|by intros [?%elem_of_nil _]].
Qed.




End ExtractFacts.

Section ExtractTheorems.

Import ExtractToS3.

Variable tar_extract : string → bool.
Variable s3_upload_file : string → result unit.

Lemma extract_run_inv (present : gset string) (data : list record) (count : Z) :
  extract_inv s3_upload_file present (listed_members (slice data 0 count))
    (extract_and_upload tar_extract s3_upload_file data count
       (initial_state present)).2.
Proof.
  unfold extract_and_upload.
  apply (for_each_preserves_in
           (extract_inv s3_upload_file present
              (listed_members (slice data 0 count)))); [|apply initial_inv].
  intros r s Hr Hs. apply inv_process_record; [|done].
  intros m Hm. unfold listed_members. by eapply elem_of_flat_map.
Qed.

(** X22 (one upload per key). In a run of [extract_and_upload], however it
    ends, [s3.upload_file] is called at most once for a key, also for a page
    that several records name and also after its upload has failed; the set
    of uploaded files holds just the keys whose one upload went through, and
    each of them is in the set of extracted files. *)
Theorem upload_called_once_per_key (present : gset string)
    (data : list record) (count : Z) :
  let st' := (extract_and_upload tar_extract s3_upload_file data count
                (initial_state present)).2 in
  NoDup (upload_keys (trace st')) ∧
  uploaded_files st' ⊆ extracted_files st' ∧
  ∀ k, k ∈ uploaded_files st' ↔
       UploadFile k ∈ trace st' ∧ is_ok (s3_upload_file k) = true.
Proof.
  intros st'.
  destruct (extract_run_inv present data count) as (H1 & _ & H3 & H4 & _).
  split; [exact H3|]. split; [exact H1|exact H4].
Qed.

(** X23 (what a run touches). In a run of [extract_and_upload], however it
    ends, [tar] is only run for members that were not under the output
    directory at the start, and both [tar] and the upload only ever concern
    members that the first [count] records name. *)
Theorem extract_touches_only_listed (present : gset string)
    (data : list record) (count : Z) (m : string) :
  let st' := (extract_and_upload tar_extract s3_upload_file data count
                (initial_state present)).2 in
  (RunTar m ∈ trace st' →
     (m ∉ present) ∧ m ∈ listed_members (slice data 0 count)) ∧
  (UploadFile m ∈ trace st' → m ∈ listed_members (slice data 0 count)).
Proof.
  intros st'.
  destruct (extract_run_inv present data count) as (_ & H2 & _ & _ & _ & H6).
  split; [apply H6|]. intros Hm. by destruct (H2 m Hm).
Qed.


End ExtractTheorems.

(** The run of [extract_and_upload] on three records: the first names a
    member that is present and one for which [tar] fails, the second has no
    entity pages, the third names a member whose upload fails, twice, and
    the present one again. *)
Example extract_run_example :
  ExtractToS3.trace
    (ExtractToS3.extract_and_upload tar_fails_for_b upload_fails_for_c
       three_records_data 10
       (ExtractToS3.initial_state {[ "evidence/wikipedia/a.txt" ]})).2
  = [ExtractToS3.PrintSkipExtract "evidence/wikipedia/a.txt";
     ExtractToS3.UploadFile "evidence/wikipedia/a.txt";
     ExtractToS3.PrintUploaded "evidence/wikipedia/a.txt";
     ExtractToS3.RunTar "evidence/wikipedia/b.txt";
     ExtractToS3.PrintExtractFailed "evidence/wikipedia/b.txt";
     ExtractToS3.RunTar "evidence/wikipedia/c.txt";
     ExtractToS3.PrintExtracted "evidence/wikipedia/c.txt";
     ExtractToS3.UploadFile "evidence/wikipedia/c.txt";
     ExtractToS3.PrintUploadFailed "evidence/wikipedia/c.txt"
       (TransportError "EndpointConnectionError")].
Proof. vm_compute. reflexivity. Qed.

Section MoreFacts.

Variable bedrock_invoke_model : string → json → result json.
Variable requests_post : string → json → result (Z * json).
Variables (AOSS_ENDPOINT INDEX_NAME : string).

(** X25 (a search without hits). With retrieval on, when the search
    endpoint answers 200 with an object that has no [hits] entry, the prompt
    of the Lambda handler is still built, with an empty context between
    ["Context:"] and the question, after the embedding and the search
    request. *)
Theorem prompt_with_no_hits (question : string) (res embedding : json)
    (fields : list (string * json)) (t : list call) :
  bedrock_invoke_model LambdaFunction.EMBED_MODEL_ID
    (JDict [("inputText", JStr question)]) = Ok res →
  Json.item res "embedding" = Ok embedding →
  requests_post (AOSS_ENDPOINT +:+ "/" +:+ INDEX_NAME +:+ "/_search")
                (AossQuery.knn_query embedding 5) = Ok (200, JDict fields) →
  Json.assoc fields "hits" = None →
  LambdaFunction.full_prompt bedrock_invoke_model requests_post
    AOSS_ENDPOINT INDEX_NAME true question t
  = (Ok ("Use the context below to answer the question." +:+ LF
           +:+ "Context:" +:+ LF +:+ LF +:+ LF
           +:+ "Question: " +:+ question +:+ LF +:+ "Answer:"),
     t ++ [InvokeModel LambdaFunction.EMBED_MODEL_ID
             (JDict [("inputText", JStr question)]);
           HttpPost (AOSS_ENDPOINT +:+ "/" +:+ INDEX_NAME +:+ "/_search")
                    (AossQuery.knn_query embedding 5)]).
Proof.
  intros Hemb Hitem Hpost Hhits.
  unfold LambdaFunction.full_prompt, LambdaFunction.embed_text,
    LambdaFunction.knn_search, invoke_model, http_post,
    mbind, M_bind, bind, lift, modify, mret, ret.
  rewrite Hemb, Hitem, Hpost. cbn [fst snd Z.eqb Pos.eqb negb Json.get].
  rewrite Hhits. cbn. by rewrite <- List.app_assoc.
Qed.

End MoreFacts.

(** X25 on a search endpoint that finds nothing. *)
Lemma prompt_with_no_hits_witness :
  LambdaFunction.full_prompt bedrock_embedding search_nothing
    "https://aoss.example" "rag-index" true "Capital of France?" []
  = (Ok ("Use the context below to answer the question." +:+ LF
           +:+ "Context:" +:+ LF +:+ LF +:+ LF
           +:+ "Question: " +:+ "Capital of France?" +:+ LF +:+ "Answer:"),
     [] ++ [InvokeModel LambdaFunction.EMBED_MODEL_ID
              (JDict [("inputText", JStr "Capital of France?")]);
            HttpPost ("https://aoss.example" +:+ "/" +:+ "rag-index" +:+ "/_search")
              (AossQuery.knn_query (JList [JFloat 1 (-1); JFloat 2 (-1)]) 5)]).
Proof.
  apply (prompt_with_no_hits bedrock_embedding search_nothing
           "https://aoss.example" "rag-index" "Capital of France?"
           (JDict [("embedding", JList [JFloat 1 (-1); JFloat 2 (-1)])])
           (JList [JFloat 1 (-1); JFloat 2 (-1)]) [] []); reflexivity.
Defined.

(** X26 (a text a little longer than the stride). When the text has more
    words than the stride [max_words - overlap] but no more than
    [max_words] and no more than two strides, the windowed chunker returns
    two chunks: the whole text, and again its words from the stride on, so
    the tail of the text is embedded twice. *)
Theorem windowed_tail_repeated (text : string) (max_words overlap : Z) :
  overlap < max_words →
  max_words - overlap < len (split text) →
  len (split text) ≤ max_words →
  len (split text) ≤ 2 * (max_words - overlap) →
  BuildFaissIndex.chunk_text text max_words overlap
  = Ok [join " " (split text);
        join " " (drop (Z.to_nat (max_words - overlap)) (split text))].
Proof.
  intros Ho Hs Hm H2. pose proof (len_nonneg (split text)) as Hn.
  rewrite chunk_text_windows by lia.
  set (n := len (split text)) in *. set (s := max_words - overlap) in *.
  assert (Hcnt : range_len n s = 2%nat).
  { unfold range_len.
    assert ((n + s - 1) / s = 2) as ->; [|done].
    symmetry. apply (Z.div_unique _ _ 2 (n - s - 1)); lia. }
  rewrite Hcnt. cbn [seq map Nat.mul Nat.add]. rewrite drop_0.
  unfold n, len in *. do 3 f_equal.
  - apply take_ge. lia.
  - f_equal. rewrite take_ge; [|rewrite length_drop; lia]. f_equal. lia.
Qed.

(** X26 on a text of 160 words with the parameters of the script. *)
Lemma windowed_tail_repeated_witness :
  BuildFaissIndex.chunk_text (plain_text 160) 200 50
  = Ok [join " " (split (plain_text 160));
        join " " (drop (Z.to_nat (200 - 50)) (split (plain_text 160)))].
Proof.
  apply (windowed_tail_repeated (plain_text 160) 200 50);
    vm_compute; first [reflexivity | discriminate].
Defined.
